(** * squid-gsheets-store: a checkpointed, append-only store over a spreadsheet

    A shallow embedding of [types.ts], [table.ts] and [database.ts].

    - JavaScript values are an inductive type; a [number] is an IEEE-754
      binary64, i.e. Rocq's primitive [float], so that [==], [/] and [+]
      are the operations the program runs.
    - An exception is the [Throw] branch of [Result].
    - Objects used as ordered dictionaries ([tables], a schema) are
      association lists in property order (an object has no key twice: where
      it matters, a statement assumes [NoDup] of the keys); a record passed
      to [insert] is a plain object: a finite map from its own property
      names to values, with [Object.prototype] behind it.
    - The spreadsheet service is an interface ([SheetsClient]): a transition
      function on an abstract remote state.  Every call is appended, with its
      outcome, to a trace.
    - [Database] methods are computations in a state-and-exception monad over
      the [World]: the fields of [this], the remote state, the trace, and the
      variables captured by the closures that [transact] creates. *)

From Stdlib Require Import ZArith List String Ascii Floats DecimalString Lia.
From Stdlib Require DecimalZ DecimalPos.
From stdpp Require Import base option list strings gmap.

(** ** JavaScript values and exceptions *)

Module JS.

(** The exceptions the program can raise or forward. *)
Inductive Error : Type :=
| AssertionError (message : option string)  (* [assert(c)] / [assert(c, msg)] *)
| PlainError (message : string)             (* [new Error(msg)] *)
| TypeError (message : string)
| RangeError (message : string)
| GaxiosError (status : Z) (message : string). (* a rejected service call *)

Inductive Result (A : Type) : Type :=
| Ok (a : A)
| Throw (e : Error).
Arguments Ok {A} a.
Arguments Throw {A} e.

#[global] Instance Result_ret : MRet Result := fun A a => Ok a.
#[global] Instance Result_bind : MBind Result := fun A B k r =>
  match r with
  | Ok a => k a
  | Throw e => Throw e
  end.
#[global] Instance Result_fmap : FMap Result := fun A B f r =>
  match r with
  | Ok a => Ok (f a)
  | Throw e => Throw e
  end.

Definition isOk {A} (r : Result A) : bool :=
  match r with Ok _ => true | Throw _ => false end.

(** Runtime values that reach the store.  A [Date] carries its time value;
    the last two are what a plain object inherits: the built-in functions of
    [Object.prototype], by name, and [Object.prototype] itself. *)
Inductive Value : Type :=
| VUndefined
| VNull
| VBoolean (b : bool)
| VNumber (x : float)
| VBigInt (n : Z)
| VString (s : string)
| VDate (t : float)
| VFunction (name : string)
| VObjectPrototype.

(** [typeof v] *)
Definition typeof (v : Value) : string :=
  match v with
  | VUndefined => "undefined"
  | VNull => "object"
  | VBoolean _ => "boolean"
  | VNumber _ => "number"
  | VBigInt _ => "bigint"
  | VString _ => "string"
  | VDate _ => "object"
  | VFunction _ => "function"
  | VObjectPrototype => "object"
  end.

(** The properties a plain object inherits from [Object.prototype]: its
    methods, [constructor] (the function [Object]) and the accessor
    [__proto__] (which yields the prototype). *)
Definition Object_prototype (key : string) : option Value :=
  if String.eqb key "constructor" then Some (VFunction "Object")
  else if String.eqb key "__proto__" then Some VObjectPrototype
  else if existsb (String.eqb key)
            ["__defineGetter__"; "__defineSetter__"; "hasOwnProperty"; "__lookupGetter__";
             "__lookupSetter__"; "isPrototypeOf"; "propertyIsEnumerable"; "toString";
             "valueOf"; "toLocaleString"]
       then Some (VFunction key)
  else None.

(** [v == null] *)
Definition eq_null (v : Value) : bool :=
  match v with
  | VUndefined | VNull => true
  | _ => false
  end.

(** [assert(c)] and [assert(c, message)] of node's [assert] module. *)
Definition assert (c : bool) (message : option string) : Result unit :=
  if c then Ok tt else Throw (AssertionError message).

(** The number nearest to an integer (round to nearest, ties to even). *)
Definition ofZ (z : Z) : float := SF2Prim (binary_normalize prec emax z 0 false).

(** [n.toString()] of a bigint. *)
Definition BigInt_toString (n : Z) : string := NilZero.string_of_int (Z.to_int n).

(** Built-ins of the host that the program calls.  They are an interface:
    the results below hold for any implementation of it, and [reference.host]
    further down is one that computes. *)
Class Host : Type := {
  (** ECMAScript [StringToNumber] *)
  StringToNumber : string -> float;
  (** ECMAScript [Number::toString(x, 10)], as used by template literals *)
  NumberToString : float -> string;
  (** [createHash('md5').update(s).digest()], sixteen bytes *)
  md5_digest : string -> list Byte.byte;
  md5_digest_length : forall s, length (md5_digest s) = 16%nat;
}.

Section Conversions.
Context `{Host}.

(** [Number(v)].  An object that is no [Date] is converted through its
    [toString]: the source text of a built-in function, and
    ["[object Object]"]. *)
Definition Number (v : Value) : float :=
  match v with
  | VUndefined => nan
  | VNull => 0%float
  | VBoolean b => if b then 1%float else 0%float
  | VNumber x => x
  | VBigInt n => ofZ n
  | VString s => StringToNumber s
  | VDate t => t
  | VFunction name => StringToNumber ("function " +:+ name +:+ "() { [native code] }")
  | VObjectPrototype => StringToNumber "[object Object]"
  end.

(** [v.valueOf()] *)
Definition valueOf (v : Value) : Result Value :=
  match v with
  | VUndefined => Throw (TypeError "Cannot read properties of undefined (reading 'valueOf')")
  | VNull => Throw (TypeError "Cannot read properties of null (reading 'valueOf')")
  | VDate t => Ok (VNumber t)
  | _ => Ok v
  end.

(** [v / y] for a number [y]: a bigint operand does not mix with a number,
    every other operand is converted by [ToNumber]. *)
Definition divide (v : Value) (y : float) : Result float :=
  match v with
  | VBigInt _ => Throw (TypeError "Cannot mix BigInt and other types, use explicit conversions")
  | _ => Ok (Number v / y)%float
  end.
End Conversions.

(** [buf.readUint16LE()] at offset 0. *)
Definition readUint16LE (buf : list Byte.byte) : Result Z :=
  match buf with
  | b0 :: b1 :: _ =>
      Ok (Z.of_N (Byte.to_N b0) + Z.shiftl (Z.of_N (Byte.to_N b1)) 8)%Z
  | _ => Throw (RangeError "Attempt to access memory outside buffer bounds")
  end.

End JS.

Export JS.


(** ** types.ts *)

Module types.

(** [interface Type<T>] (declared in table.ts).  The static parameter [T] and
    the result type [Primitive] are erased at run time: [serialize] receives
    whatever value the record holds and returns a value. *)
Record Type_ : Type := {
  formatType : string;
  serialize : Value -> Result Value;
}.

Definition String : Type_ := {|
  formatType := "TEXT";
  serialize value :=
    _ ← assert (String.eqb (typeof value) "string") None;
    mret value
|}.

(** [switch (typeof value)]: the cases ['bigint'] and ['number'], and the
    default. *)
Definition Numeric : Type_ := {|
  formatType := "TEXT";
  serialize value :=
    match value with
    | VBigInt n => mret (VString (BigInt_toString n))
    | VNumber _ => mret value
    | _ => Throw (PlainError "")
    end
|}.

Definition DateTime `{Host} : Type_ := {|
  formatType := "DATE_TIME";
  serialize value :=
    t ← valueOf value;
    d ← divide t 86400000;
    mret (VNumber (d + 25569)%float)
|}.

Definition Boolean : Type_ := {|
  formatType := "TEXT";
  serialize value :=
    _ ← assert (String.eqb (typeof value) "boolean") (Some "Invalid boolean");
    mret value
|}.

End types.

(** ** table.ts *)

Module table.
Import types.

(** [Required<ColumnOptions>] *)
Record ColumnOptions : Type := { nullable : bool }.

Record ColumnData : Type := {
  type : Type_;
  options : ColumnOptions;
}.

Record Column : Type := {
  name : string;
  data : ColumnData;
}.

(** A schema object, as the list of its properties in enumeration order. *)
Definition TableSchema : Type := list (string * ColumnData).

(** A record handed to [insert]: its own properties. *)
Abbreviation Record_ := (gmap string Value).

(** [record[key]] on a plain object: an own property, else a property
    inherited from [Object.prototype], else [undefined]. *)
Definition get (record : Record_) (key : string) : Value :=
  match record !! key with
  | Some v => v
  | None => default VUndefined (Object_prototype key)
  end.

(** [function Column(type, options?)]: [{nullable: false, ...options}], where
    [options] may be absent or may lack [nullable]. *)
Definition Column_ (type : Type_) (options : option (option bool)) : ColumnData :=
  {| type := type;
     options := {| nullable := default false (mjoin options) |} |}.

(** [class TableWriter] *)
Record TableWriter : Type := {
  columns : list Column;
  records : list Record_;
}.

Module Table.
(** [class Table] *)
Record t : Type := {
  name : string;
  columns : list Column;
}.

(** [constructor(name, schema)]: the [for (let column in schema)] loop. *)
Definition new (name : string) (schema : TableSchema) : t :=
  {| name := name;
     columns :=
       fold_left
         (fun columns '(column, d) => columns ++ [{| table.name := column; data := d |}])
         schema [] |}.

Definition createWriter (this : t) : TableWriter :=
  {| table.columns := columns this; records := [] |}.
End Table.

Module TableWriter.
(** [let value = record[column.name]] and the pushed expression
    [value == null ? null : column.data.type.serialize(value)]. *)
Definition cell (record : Record_) (column : Column) : Result Value :=
  let value := get record (name column) in
  if eq_null value then mret VNull else serialize (type (data column)) value.

(** The body of the inner loop of [flush]: [values.push(...)]. *)
Definition pushValue (record : Record_) (values : list Value) (column : Column)
  : Result (list Value) :=
  v ← cell record column;
  mret (values ++ [v]).

(** A [for ... of] loop whose body may throw, threading the loop state. *)
Fixpoint forOf {A B} (body : B -> A -> Result B) (l : list A) (acc : B) : Result B :=
  match l with
  | [] => mret acc
  | x :: l' => acc' ← body acc x; forOf body l' acc'
  end.

Definition flush (this : TableWriter) : Result (list (list Value)) :=
  forOf
    (fun res record =>
       values ← forOf (pushValue record) (columns this) [];
       mret (res ++ [values]))
    (records this) [].

(** [this.records.push(record)] *)
Definition insert (record : Record_) (this : TableWriter) : TableWriter :=
  {| columns := columns this; records := records this ++ [record] |}.

(** [this.records.push(...records)].  The spread hands the records over as
    the arguments of one call; the model covers the calls the engine takes,
    not an array so long (some hundred thousand records) that the call
    throws a [RangeError] for lack of stack. *)
Definition insertMany (records' : list Record_) (this : TableWriter) : TableWriter :=
  {| columns := columns this; records := records this ++ records' |}.
End TableWriter.

End table.

(** ** The spreadsheet service, as far as the program uses [@googleapis/sheets] *)

Module sheets.

Inductive ValueInputOption : Type := RAW | USER_ENTERED.

(** [Schema$ValueRange] *)
Record ValueRange : Type := {
  range : string;
  values : list (list Value);
}.

(** [Schema$CellData], with the two fields the header row sets. *)
Record CellData : Type := {
  userEnteredValue_stringValue : string;
  userEnteredFormat_numberFormat_type : string;
}.

(** [Schema$Request] *)
Inductive Request : Type :=
| addSheet (sheetId : option Z) (title : string) (rowCount columnCount : nat)
| updateCells (sheetId : Z)
    (startColumnIndex endColumnIndex startRowIndex endRowIndex : nat)
    (rows : list (list CellData)) (fields : string).

(** The client methods the program calls, with their parameters. *)
Inductive Call : Type :=
| spreadsheets_get (spreadsheetId : string)
| spreadsheets_batchUpdate (spreadsheetId : string) (requests : list Request)
| values_get (spreadsheetId range : string)
| values_update (spreadsheetId range : string) (values : list (list Value))
    (valueInputOption : ValueInputOption)
| values_append (spreadsheetId range : string) (valueInputOption : ValueInputOption)
    (values : list (list Value))
| values_batchUpdate (spreadsheetId : string) (data : list ValueRange)
    (valueInputOption : ValueInputOption) (includeValuesInResponse : bool).

(** [s.properties?.title] of a listed sheet. *)
Record Sheet : Type := { title : option string }.

(** The [data] of a response: every field is optional, and the program reads
    these three. *)
Record Data : Type := {
  data_sheets : option (list Sheet);
  data_values : option (list (list Value));
  data_tableRange : option string;
}.

(** The service: a call answers or is rejected, and moves the remote state. *)
Class SheetsClient (S : Type) : Type := {
  send : Call -> S -> Result Data * S;
}.

End sheets.

(** ** database.ts *)

Module database.
Import types table sheets.

(** The fields of a [Database] object ([sheetsClient] is the [SheetsClient]
    instance). *)
Record Database : Type := {
  tables : list (string * Table.t);
  spreadsheetId : string;
  lastCommitted : float;
}.

(** [interface DatabaseOptions] without the client options. *)
Record DatabaseOptions : Type := {
  options_tables : list (string * Table.t);
  options_spreadsheetId : string;
}.

Definition new (options : DatabaseOptions) : Database :=
  {| tables := options_tables options;
     spreadsheetId := options_spreadsheetId options;
     lastCommitted := (-1)%float |}.

(** [Object.keys(o)], [Object.values(o)] and [o[k]] on a dictionary. *)
Definition keys {A} (o : list (string * A)) : list string := map fst o.
Definition vals {A} (o : list (string * A)) : list A := map snd o.
Fixpoint prop {A} (o : list (string * A)) (k : string) : option A :=
  match o with
  | [] => None
  | (k', v) :: o' => if String.eqb k' k then Some v else prop o' k
  end.

(** [Chunk<T>]: one writer per table alias. *)
Abbreviation Chunk := (gmap string TableWriter).

(** [createChunk()] *)
Definition createChunk (this : Database) : Chunk :=
  fold_left
    (fun chunk name =>
       match prop (tables this) name with
       | Some t => <[name := Table.createWriter t]> chunk
       | None => chunk
       end)
    (keys (tables this)) ∅.

(** The variables one [transact] call declares and its closures capture. *)
Record Scope : Type := {
  open : bool;
  chunk : Chunk;
}.

(** A [Store] object is the closure it was constructed with, that is, the
    scope of the [transact] call that made it. *)
Abbreviation Store := nat.

Section Protocol.
Context `{Host} {S : Type} `{SheetsClient S}.

Record World : Type := {
  this : Database;
  remote : S;
  trace : list (Call * Result Data);
  scopes : list Scope;
}.

(** Computations that read and write the world and may throw. *)
Definition M (A : Type) : Type := World -> Result A * World.

#[global] Instance M_ret : MRet M := fun A a w => (Ok a, w).
#[global] Instance M_bind : MBind M := fun A B k m w =>
  match m w with
  | (Ok a, w') => k a w'
  | (Throw e, w') => (Throw e, w')
  end.

Definition throw {A} (e : Error) : M A := fun w => (Throw e, w).
Definition lift {A} (r : Result A) : M A := fun w => (r, w).
Definition getThis : M Database := fun w => (Ok (this w), w).

(** [this.lastCommitted = x] *)
Definition setLastCommitted (x : float) : M unit := fun w =>
  (Ok tt,
   {| this := {| tables := tables (this w);
                 spreadsheetId := spreadsheetId (this w);
                 lastCommitted := x |};
      remote := remote w; trace := trace w; scopes := scopes w |}).

(** [await this.sheetsClient.<method>(params)] *)
Definition call (c : Call) : M Data := fun w =>
  let '(r, s) := send c (remote w) in
  (r, {| this := this w; remote := s; trace := trace w ++ [(c, r)]; scopes := scopes w |}).

(** [spreadsheet.sheets?.find((s) => s.properties?.title === t)] *)
Definition findSheet (spreadsheet : Data) (t : string) : option Sheet :=
  sheets ← data_sheets spreadsheet;
  find (fun s => bool_decide (title s = Some t)) sheets.

(** [data.values?.[0]?.[0]] *)
Definition firstCell (data : Data) : Value :=
  match data_values data with
  | Some ((v :: _) :: _) => v
  | _ => VUndefined
  end.

(** [v ?? d] *)
Definition coalesce (v d : Value) : Value := if eq_null v then d else v.

(** The two requests [migrate] issues for a new table. *)
Definition newTableRequests (t : Table.t) : Result (list Request) :=
  sheetId ← readUint16LE (md5_digest (Table.name t));
  mret
    [ addSheet (Some sheetId) (Table.name t) 1 (length (Table.columns t));
      updateCells sheetId 0 (length (Table.columns t)) 0 1
        [ map
            (fun c =>
               {| userEnteredValue_stringValue := name c;
                  userEnteredFormat_numberFormat_type := formatType (type (data c)) |})
            (Table.columns t) ]
        "userEnteredValue(stringValue),userEnteredFormat(numberFormat)" ].

(** [spreadsheet.sheets?.findIndex((s) => s.properties?.title == t.name) === -1] *)
Definition isNewTable (spreadsheet : Data) (t : Table.t) : bool :=
  match data_sheets spreadsheet with
  | None => false
  | Some sheets =>
      negb (existsb (fun s => bool_decide (title s = Some (Table.name t))) sheets)
  end.

Definition migrate : M unit :=
  this ← getThis;
  spreadsheet ← call (spreadsheets_get (spreadsheetId this));
  let newTables := filter (fun t => isNewTable spreadsheet t = true) (vals (tables this)) in
  if (0 <? length newTables)%nat then
    requests ← lift (mapM newTableRequests newTables);
    _ ← call (spreadsheets_batchUpdate (spreadsheetId this) (concat requests));
    mret tt
  else mret tt.

Definition connect : M float :=
  this ← getThis;
  spreadsheet ← call (spreadsheets_get (spreadsheetId this));
  _ ← match findSheet spreadsheet "squid_status" with
      | None =>
          _ ← call (spreadsheets_batchUpdate (spreadsheetId this)
                      [addSheet None "squid_status" 1 1]);
          setLastCommitted (-1)%float
      | Some _ =>
          data ← call (values_get (spreadsheetId this) "squid_status!R1C1");
          setLastCommitted (Number (coalesce (firstCell data) (VNumber (-1)%float)))
      end;
  _ ← migrate;
  this ← getThis;
  mret (lastCommitted this).

Definition close : M unit := setLastCommitted (-1)%float.

(** *** The transaction scope and the Store facade *)

Definition setScopes (f : list Scope -> list Scope) : M unit := fun w =>
  (Ok tt, {| this := this w; remote := remote w; trace := trace w; scopes := f (scopes w) |}).

(** [let open = true; let chunk = this.createChunk();
     let store = new this.StoreConstructor(() => {...})].  The constructor
    assigns the property [chunk] of the store; the model covers the
    databases without a table of that alias, for which the assignment would
    meet a getter defined on the prototype. *)
Definition newStore : M Store := fun w =>
  (Ok (length (scopes w)),
   {| this := this w; remote := remote w; trace := trace w;
      scopes := scopes w ++ [{| open := true; chunk := createChunk (this w) |}] |}).

(** [open = false] in the scope of [store]. *)
Definition closeStore (store : Store) : M unit :=
  setScopes (alter (fun sc => {| open := false; chunk := chunk sc |}) store).

(** The closure handed to the Store constructor:
    [() => { assert(open, `Transaction was already closed`); return chunk }].
    Only [transact] makes stores, so a store always has its scope; the model
    answers for any other number as for a closed store. *)
Definition storeChunk (store : Store) : M Chunk := fun w =>
  match scopes w !! store with
  | Some sc =>
      (_ ← assert (open sc) (Some "Transaction was already closed"); mret (chunk sc), w)
  | None => (Throw (AssertionError (Some "Transaction was already closed")), w)
  end.

(** A [TableWriter] object of a chunk, by reference. *)
Definition WriterRef : Type := Store * string.

(** [store[name]]: the getter that the constructor defines on the prototype
    for every table alias, [this.chunk()[name]]; any other property of a
    store reads as [undefined]. *)
Definition Store_get (store : Store) (name : string) : M (option WriterRef) :=
  this ← getThis;
  if bool_decide (name ∈ keys (tables this)) then
    chunk ← storeChunk store;
    mret (match chunk !! name with Some _ => Some (store, name) | None => None end)
  else mret None.

(** A method call on a writer object mutates it in place. *)
Definition updateWriter (w : WriterRef) (f : TableWriter -> TableWriter) : M unit :=
  setScopes
    (alter (fun sc => {| open := open sc; chunk := alter f (snd w) (chunk sc) |}) (fst w)).

(** [store[name].insert(record)] *)
Definition Store_insert (store : Store) (name : string) (record : Record_) : M unit :=
  writer ← Store_get store name;
  match writer with
  | Some w => updateWriter w (TableWriter.insert record)
  | None => throw (TypeError "Cannot read properties of undefined (reading 'insert')")
  end.

(** [store[name].insertMany(records)] *)
Definition Store_insertMany (store : Store) (name : string) (records : list Record_) : M unit :=
  writer ← Store_get store name;
  match writer with
  | Some w => updateWriter w (TableWriter.insertMany records)
  | None => throw (TypeError "Cannot read properties of undefined (reading 'insertMany')")
  end.

(** *** Row reservation *)

Definition isDigit (c : ascii) : bool :=
  let n := nat_of_ascii c in (48 <=? n)%nat && (n <=? 57)%nat.
Definition isUpper (c : ascii) : bool :=
  let n := nat_of_ascii c in (65 <=? n)%nat && (n <=? 90)%nat.

(** The longest prefix of [l] whose elements satisfy [p], and the rest. *)
Fixpoint span {A} (p : A -> bool) (l : list A) : list A * list A :=
  match l with
  | [] => ([], [])
  | x :: l' => if p x then let '(a, b) := span p l' in (x :: a, b) else ([], l)
  end.

(** Whether [.*] matches the whole of a string given backwards: no line
    terminator, i.e. none of LF, CR, U+2028 and U+2029 (in UTF-8, E2 80 A8 and
    E2 80 A9). *)
Fixpoint dotStar (r : list ascii) : bool :=
  match r with
  | [] => true
  | c :: r' =>
      let n := nat_of_ascii c in
      if ((n =? 10) || (n =? 13))%nat then false
      else
        match r' with
        | c1 :: c2 :: _ =>
            if (((n =? 168) || (n =? 169)) && (nat_of_ascii c1 =? 128)
                && (nat_of_ascii c2 =? 226))%nat
            then false else dotStar r'
        | _ => dotStar r'
        end
  end.

(** [/^.*![A-Z]+\d+:[A-Z]+(\d+)$/.exec(s)?.[1]].  The classes of digits,
    capitals, the colon and the exclamation mark are disjoint, so the groups
    are read off from the end of the string. *)
Definition tableRangeIndex (s : string) : option string :=
  let r := rev (list_ascii_of_string s) in
  let '(d2, r) := span isDigit r in
  let '(c2, r) := span isUpper r in
  match r with
  | ":"%char :: r =>
      let '(d1, r) := span isDigit r in
      let '(c1, r) := span isUpper r in
      match r with
      | "!"%char :: r =>
          if (0 <? length d2)%nat && (0 <? length c2)%nat && (0 <? length d1)%nat
                  && (0 <? length c1)%nat && dotStar r
          then Some (string_of_list_ascii (rev d2)) else None
      | _ => None
      end
  | _ => None
  end.

(** What [getNextRowIndex] makes of the response to its request:
    [assert(data.tableRange != null)], the match, [assert(index != null)],
    [Number(index)]. *)
Definition rowIndexOf (response : Result Data) : Result float :=
  data ← response;
  match data_tableRange data with
  | None => Throw (AssertionError None)
  | Some tableRange =>
      match tableRangeIndex tableRange with
      | None => Throw (AssertionError None)
      | Some index => Ok (Number (VString index))
      end
  end.

(** The request of [getNextRowIndex(sheet)].  The spreadsheet id is the
    literal of the source. *)
Definition appendBlankRow (sheet : string) : Call :=
  values_append "1g6aHhV7-EsB6SRmM9KIQq9y_Mm4ZVfMw_5aK79NvDXg"
    ("'" +:+ sheet +:+ "'") RAW [[VString ""]].

Definition getNextRowIndex (sheet : string) : M float := fun w =>
  let '(response, w') := call (appendBlankRow sheet) w in
  (rowIndexOf response, w').

(** [await Promise.all(ps)] for promises of [async] calls that were all
    started by the preceding [map]: every one of them runs, whether or not
    another fails, and the await throws a rejection if there is one.  Calls
    reach the service in the order they were started; of several rejections
    the first in that order is taken. *)
Fixpoint Promise_all {A} (ps : list (M A)) : M (list A) := fun w =>
  match ps with
  | [] => (Ok [], w)
  | p :: ps' =>
      let '(r, w1) := p w in
      let '(rs, w2) := Promise_all ps' w1 in
      (match r, rs with
       | Ok a, Ok l => Ok (a :: l)
       | Throw e, _ => Throw e
       | Ok _, Throw e => Throw e
       end, w2)
  end.

(** [this.tables[a]], a table whose properties are then read; the aliases
    are the keys of [this.tables], so there is one. *)
Definition tableOf (this : Database) (a : string) : Result Table.t :=
  match prop (tables this) a with
  | Some t => Ok t
  | None => Throw (TypeError "Cannot read properties of undefined (reading 'name')")
  end.

(** [`'${table.name}'!R${index + 1}C1:C${table.columns.length}`] *)
Definition rowsRange (t : Table.t) (index : float) : string :=
  "'" +:+ Table.name t +:+ "'!R" +:+ NumberToString (index + 1)%float +:+ "C1:C"
  +:+ NumberToString (ofZ (Z.of_nat (length (Table.columns t)))).

(** The body of the loop that fills [requests]. *)
Definition pushRequest (this : Database) (chunk : Chunk)
    (requests : list ValueRange) (ai : string * float) : Result (list ValueRange) :=
  table ← tableOf this ai.1;
  writer ← match chunk !! ai.1 with
           | Some w => Ok w
           | None => Throw (TypeError "Cannot read properties of undefined (reading 'flush')")
           end;
  values ← TableWriter.flush writer;
  mret (requests ++ [{| range := rowsRange table ai.2; values := values |}]).

(** The [chunk] variable of a scope, read directly (not through the store). *)
Definition scopeChunk (store : Store) : M Chunk := fun w =>
  (Ok (default ∅ (chunk <$> scopes w !! store)), w).

(** The [try] block of [transact]. *)
Definition commit (store : Store) (to : float) (cb : Store -> M unit) : M unit :=
  _ ← cb store;
  this ← getThis;
  let tableAliases := keys (tables this) in
  newRowIndecies ←
    Promise_all
      (map (fun a => t ← lift (tableOf this a); getNextRowIndex (Table.name t)) tableAliases);
  chunk ← scopeChunk store;
  requests ← lift (TableWriter.forOf (pushRequest this chunk)
                     (zip tableAliases newRowIndecies) []);
  let requests := requests ++ [{| range := "squid_status!R1C1"; values := [[VNumber to]] |}] in
  _ ← call (values_batchUpdate (spreadsheetId this) requests USER_ENTERED false);
  setLastCommitted to.

(** [try { m } catch (e) { handler(e) }] *)
Definition try_catch {A} (m : M A) (handler : Error -> M A) : M A := fun w =>
  match m w with
  | (Throw e, w') => handler e w'
  | (Ok a, w') => (Ok a, w')
  end.

(** [transact(from, to, cb)] *)
Definition transact (from to : float) (cb : Store -> M unit) : M unit :=
  store ← newStore;
  _ ← try_catch (commit store to cb)
        (fun e => _ ← closeStore store; throw e);
  closeStore store.

(** [advance(height)] *)
Definition advance (height : float) : M unit :=
  this ← getThis;
  if (lastCommitted this =? height)%float then mret tt
  else
    _ ← call (values_update (spreadsheetId this) "squid_status!R1C1"
                [[VNumber height]] USER_ENTERED);
    mret tt.

(** *** Callbacks

    A callback is any function from the store to a computation.  The ones
    that do what the protocol expects of them use nothing but the writers
    they reach through a store: they leave the fields of the database, the
    service and the [open] variables alone, and what they change in a chunk
    are the records of its writers. *)
Definition sameShape (sc sc' : Scope) : Prop :=
  open sc' = open sc
  /\ forall alias, columns <$> chunk sc' !! alias = columns <$> chunk sc !! alias.

Definition buffersOnly (w w' : World) : Prop :=
  this w' = this w /\ remote w' = remote w /\ trace w' = trace w
  /\ Forall2 sameShape (scopes w) (scopes w').

Definition StoreOnly (cb : Store -> M unit) : Prop :=
  forall store w, buffersOnly w (cb store w).2.

(** Callbacks written as a list of statements. *)
Inductive Statement : Type :=
| insert_ (alias : string) (record : Record_)            (* [store[alias].insert(record)] *)
| insertMany_ (alias : string) (records : list Record_)  (* [store[alias].insertMany(records)] *)
| throw_ (e : Error).                                    (* [throw e] *)

Fixpoint script (body : list Statement) (store : Store) : M unit :=
  match body with
  | [] => mret tt
  | insert_ alias record :: body' =>
      _ ← Store_insert store alias record; script body' store
  | insertMany_ alias records :: body' =>
      _ ← Store_insertMany store alias records; script body' store
  | throw_ e :: _ => throw e
  end.

End Protocol.

Arguments World : clear implicits.
Arguments M : clear implicits.

End database.

(** ** A reference host and an in-memory service

    One implementation of each interface, to run the model on examples. *)

Module reference.
Import types table sheets database.

(** *** MD5 (RFC 1321), on a string taken as its bytes *)

Definition sines : list Z :=
  [
   0xd76aa478; 0xe8c7b756; 0x242070db; 0xc1bdceee;
   0xf57c0faf; 0x4787c62a; 0xa8304613; 0xfd469501;
   0x698098d8; 0x8b44f7af; 0xffff5bb1; 0x895cd7be;
   0x6b901122; 0xfd987193; 0xa679438e; 0x49b40821;
   0xf61e2562; 0xc040b340; 0x265e5a51; 0xe9b6c7aa;
   0xd62f105d; 0x02441453; 0xd8a1e681; 0xe7d3fbc8;
   0x21e1cde6; 0xc33707d6; 0xf4d50d87; 0x455a14ed;
   0xa9e3e905; 0xfcefa3f8; 0x676f02d9; 0x8d2a4c8a;
   0xfffa3942; 0x8771f681; 0x6d9d6122; 0xfde5380c;
   0xa4beea44; 0x4bdecfa9; 0xf6bb4b60; 0xbebfbc70;
   0x289b7ec6; 0xeaa127fa; 0xd4ef3085; 0x04881d05;
   0xd9d4d039; 0xe6db99e5; 0x1fa27cf8; 0xc4ac5665;
   0xf4292244; 0x432aff97; 0xab9423a7; 0xfc93a039;
   0x655b59c3; 0x8f0ccc92; 0xffeff47d; 0x85845dd1;
   0x6fa87e4f; 0xfe2ce6e0; 0xa3014314; 0x4e0811a1;
   0xf7537e82; 0xbd3af235; 0x2ad7d2bb; 0xeb86d391 ]%Z.

Definition shifts : list nat :=
  concat (map (fun row => row ++ row ++ row ++ row)
            [[7; 12; 17; 22]; [5; 9; 14; 20]; [4; 11; 16; 23]; [6; 10; 15; 21]])%nat.

Definition word (z : Z) : Z := Z.land z 0xffffffff.
Definition rotl (x : Z) (c : nat) : Z :=
  word (Z.lor (Z.shiftl x (Z.of_nat c)) (Z.shiftr x (32 - Z.of_nat c))).
Definition lnot (x : Z) : Z := Z.lxor x 0xffffffff.

(** Round [i] of the compression of one block [m] of sixteen words. *)
Definition round (m : list Z) (st : Z * Z * Z * Z) (i : nat) : Z * Z * Z * Z :=
  let '(a, b, c, d) := st in
  let '(f, g) :=
    if (i <? 16)%nat then (Z.lor (Z.land b c) (Z.land (lnot b) d), i)
    else if (i <? 32)%nat then (Z.lor (Z.land d b) (Z.land (lnot d) c), (5 * i + 1) mod 16)%nat
    else if (i <? 48)%nat then (Z.lxor b (Z.lxor c d), (3 * i + 5) mod 16)%nat
    else (Z.lxor c (Z.lor b (lnot d)), (7 * i) mod 16)%nat in
  let f := word (f + a + nth i sines 0 + nth g m 0)%Z in
  (d, word (b + rotl f (nth i shifts 0%nat))%Z, b, c).

Definition compress (st : Z * Z * Z * Z) (m : list Z) : Z * Z * Z * Z :=
  let '(a, b, c, d) := st in
  let '(a', b', c', d') := fold_left (round m) (seq 0 64) st in
  (word (a + a'), word (b + b'), word (c + c'), word (d + d'))%Z.

(** Little-endian bytes of a number, and back. *)
Fixpoint le_bytes (n : nat) (z : Z) : list Z :=
  match n with
  | O => []
  | Datatypes.S n' => Z.land z 0xff :: le_bytes n' (Z.shiftr z 8)
  end.
Definition le_word (bs : list Z) : Z :=
  fold_right (fun b acc => b + Z.shiftl acc 8)%Z 0%Z bs.

(** Cut a list into pieces of [k] elements ([k > 0]); [fuel] bounds the
    number of pieces. *)
Fixpoint chunks {A} (fuel k : nat) (l : list A) : list (list A) :=
  match fuel, l with
  | O, _ | _, [] => []
  | Datatypes.S fuel', _ => take k l :: chunks fuel' k (drop k l)
  end.

Definition pad (msg : list Z) : list Z :=
  let n := length msg in
  let zeros := ((55 + 64 - n mod 64) mod 64)%nat in
  msg ++ [0x80%Z] ++ repeat 0%Z zeros ++ le_bytes 8 (8 * Z.of_nat n).

Definition byte_of (z : Z) : Byte.byte := default Byte.x00 (Byte.of_N (Z.to_N z)).

Definition md5 (s : string) : list Byte.byte :=
  let msg := map (fun c => Z.of_nat (nat_of_ascii c)) (list_ascii_of_string s) in
  let padded := pad msg in
  let blocks := map (fun b => map le_word (chunks 16 4 b)) (chunks (length padded) 64 padded) in
  let '(a, b, c, d) :=
    fold_left compress blocks (0x67452301, 0xefcdab89, 0x98badcfe, 0x10325476)%Z in
  map byte_of (le_bytes 4 a ++ le_bytes 4 b ++ le_bytes 4 c ++ le_bytes 4 d).


(** *** Numbers and strings (ECMAScript 7.1.4.1.1 and 6.1.6.1.20) *)

(** The number nearest to the rational [p / q], for [0 <= p] and [0 < q]:
    the quotient is taken with at least 56 bits and a sticky last bit, then
    rounded once. *)
Definition ofQ (p q : Z) : float :=
  if (p =? 0)%Z then 0%float
  else
    let k := Z.max 0 (Z.log2 q + 56 - Z.log2 p) in
    let n := (p * 2 ^ k / q)%Z in
    let n := if ((p * 2 ^ k) mod q =? 0)%Z then n else Z.lor n 1 in
    SF2Prim (binary_normalize prec emax n (- k) false).

(** The number nearest to [m * 10 ^ e], for [0 <= m]. *)
Definition ofDecimal (m e : Z) : float :=
  if (0 <=? e)%Z then ofQ (m * 10 ^ e) 1 else ofQ m (10 ^ (- e)).

Definition digitValue (c : ascii) : Z := Z.of_nat (nat_of_ascii c) - 48.

(** The value of a string of digits in a base up to ten, if it is one. *)
Definition digits (base : Z) (l : list ascii) : option Z :=
  if forallb (fun c => isDigit c && (digitValue c <? base)%Z) l
  then Some (fold_left (fun acc c => acc * base + digitValue c)%Z l 0%Z)
  else None.

Definition hexValue (c : ascii) : option Z :=
  let n := Z.of_nat (nat_of_ascii c) in
  if isDigit c then Some (n - 48)%Z
  else if ((97 <=? n) && (n <=? 102))%Z then Some (n - 87)%Z
  else if ((65 <=? n) && (n <=? 70))%Z then Some (n - 55)%Z
  else None.

Definition hexDigits (l : list ascii) : option Z :=
  foldl (fun acc c => a ← acc; v ← hexValue c; Some (a * 16 + v)%Z) (Some 0%Z) l.

(** [StrWhiteSpaceChar], in UTF-8: TAB, LF, VT, FF, CR, SP, U+00A0, U+1680,
    U+2028, U+2029, U+202F, U+205F, U+3000, U+FEFF and U+2000 to U+200A. *)
Definition whiteSpace : list (list nat) :=
  [[9]; [10]; [11]; [12]; [13]; [32]; [194; 160]; [225; 154; 128]; [226; 128; 168];
   [226; 128; 169]; [226; 128; 175]; [226; 129; 159]; [227; 128; 128]; [239; 187; 191]]%nat
  ++ map (fun n => [226; 128; n]%nat) (seq 128 11).

(** Remove from the front of a string every one of the given byte
    sequences, as long as there is one. *)
Fixpoint strip (fuel : nat) (spaces : list (list nat)) (l : list ascii) : list ascii :=
  match fuel with
  | O => l
  | Datatypes.S fuel' =>
      match find (fun ws => bool_decide (take (length ws) (nat_of_ascii <$> l) = ws)) spaces with
      | Some ws => strip fuel' spaces (drop (length ws) l)
      | None => l
      end
  end.

Definition trim (l : list ascii) : list ascii :=
  rev (strip (length l) (map (@rev nat) whiteSpace) (rev (strip (length l) whiteSpace l))).

(** An optional sign. *)
Definition signed (l : list ascii) : bool * list ascii :=
  match l with
  | "-"%char :: l' => (true, l')
  | "+"%char :: l' => (false, l')
  | _ => (false, l)
  end.

(** [StrUnsignedDecimalLiteral]: [Infinity], or digits with an optional
    fraction and an optional exponent, at least one digit in the mantissa. *)
Definition unsignedDecimal (l : list ascii) : option float :=
  if bool_decide (l = list_ascii_of_string "Infinity") then Some infinity
  else
    let '(int, l) := span isDigit l in
    let '(frac, l) :=
      match l with
      | "."%char :: l' => span isDigit l'
      | _ => ([], l)
      end in
    let exponent :=
      match l with
      | [] => Some 0%Z
      | c :: l' =>
          if bool_decide (c = "e"%char \/ c = "E"%char) then
            let '(neg, ds) := signed l' in
            match ds with
            | [] => None
            | _ => (fun e => if neg then (- e)%Z else e) <$> digits 10 ds
            end
          else None
      end in
    match int ++ frac, exponent with
    | [], _ | _, None => None
    | ds, Some e =>
        (fun m => ofDecimal m (e - Z.of_nat (length frac))) <$> digits 10 ds
    end.

Definition StringToNumber (s : string) : float :=
  let l := trim (list_ascii_of_string s) in
  let radix (base : Z) (ds : list ascii) : float :=
    match ds with
    | [] => nan
    | _ => default nan ((fun z => ofQ z 1) <$> (if (base =? 16)%Z then hexDigits ds else digits base ds))
    end in
  match l with
  | [] => 0%float
  | "0"%char :: c :: ds =>
      if bool_decide (c = "x"%char \/ c = "X"%char) then radix 16%Z ds
      else if bool_decide (c = "o"%char \/ c = "O"%char) then radix 8%Z ds
      else if bool_decide (c = "b"%char \/ c = "B"%char) then radix 2%Z ds
      else default nan (unsignedDecimal l)
  | _ =>
      let '(neg, l') := signed l in
      default nan ((fun x => if neg then (- x)%float else x) <$> unsignedDecimal l')
  end.

(** [p / q >= 10 ^ n], for positive [p] and [q]. *)
Definition reaches (p q n : Z) : bool :=
  if (0 <=? n)%Z then (q * 10 ^ n <=? p)%Z else (q <=? p * 10 ^ (- n))%Z.

Fixpoint climb (fuel : nat) (p q n : Z) : Z :=
  match fuel with
  | O => n
  | Datatypes.S fuel' => if reaches p q n then climb fuel' p q (n + 1)%Z else n
  end.

Fixpoint descend (fuel : nat) (p q n : Z) : Z :=
  match fuel with
  | O => n
  | Datatypes.S fuel' => if reaches p q (n - 1) then n else descend fuel' p q (n - 1)%Z
  end.

(** The [n] with [10 ^ (n - 1) <= p / q < 10 ^ n]; a binary64 lies within
    [10 ^ -324] and [10 ^ 309]. *)
Definition magnitude (p q : Z) : Z := descend 400 p q (climb 400 p q 0).

(** The digits [s] and the exponent [n] of the shortest decimal that reads
    back as [x = p / q] with [k] digits, if there is one: of the two
    [k]-digit decimals around [x], the nearer one that does (the even one
    when both are as near). *)
Definition shortest (x : float) (p q n : Z) (k : Z) : option (Z * Z) :=
  let e := (k - n)%Z in
  let '(num, den) := if (0 <=? e)%Z then (p * 10 ^ e, q)%Z else (p, q * 10 ^ (- e))%Z in
  let lo := (num / den)%Z in
  let hi := if (lo + 1 <? 10 ^ k)%Z then (lo + 1, n)%Z else (10 ^ (k - 1), n + 1)%Z in
  let reads '(s, n') := (ofDecimal s (n' - k) =? x)%float in
  let upper := (2 * num ?= (2 * lo + 1) * den)%Z in
  match reads (lo, n), reads hi with
  | true, true =>
      match upper with
      | Gt => Some hi
      | Lt => Some (lo, n)
      | Eq => if Z.even lo then Some (lo, n) else Some hi
      end
  | true, false => Some (lo, n)
  | false, true => Some hi
  | false, false => None
  end.

Fixpoint shortestFrom (fuel : nat) (x : float) (p q n k : Z) : Z * Z * Z :=
  match fuel with
  | O => (0, 0, k)%Z
  | Datatypes.S fuel' =>
      match shortest x p q n k with
      | Some (s, n') => (s, n', k)
      | None => shortestFrom fuel' x p q n (k + 1)%Z
      end
  end.

Definition decimal (z : Z) : string := NilZero.string_of_int (Z.to_int z).
Definition zeros (n : Z) : string := string_of_list_ascii (repeat "0"%char (Z.to_nat n)).

(** [Number::toString(x, 10)] *)
Definition NumberToString (x : float) : string :=
  match Prim2SF x with
  | S754_nan => "NaN"
  | S754_zero _ => "0"
  | S754_infinity neg => if neg then "-Infinity" else "Infinity"
  | S754_finite neg m e =>
      let '(p, q) := if (0 <=? e)%Z then (Z.pos m * 2 ^ e, 1)%Z else (Z.pos m, 2 ^ (- e))%Z in
      let '(s, n, k) := shortestFrom 17 (abs x) p q (magnitude p q) 1 in
      let d := decimal s in
      let body :=
        if ((k <=? n) && (n <=? 21))%Z then d +:+ zeros (n - k)
        else if ((0 <? n) && (n <=? 21))%Z then
          String.substring 0 (Z.to_nat n) d +:+ "." +:+ String.substring (Z.to_nat n) (Z.to_nat (k - n)) d
        else if ((-6 <? n) && (n <=? 0))%Z then "0." +:+ zeros (- n) +:+ d
        else
          let exponent := (if (0 <=? n - 1)%Z then "+" else "-") +:+ decimal (Z.abs (n - 1)) in
          if (k =? 1)%Z then d +:+ "e" +:+ exponent
          else String.substring 0 1 d +:+ "." +:+ String.substring 1 (Z.to_nat (k - 1)) d
               +:+ "e" +:+ exponent in
      if neg then "-" +:+ body else body
  end.

(** A digest has sixteen bytes. *)
Definition md5_length (s : string) : length (md5 s) = 16%nat.
Proof.
  unfold md5.
  destruct (fold_left compress _ _) as [[[a b] c] d].
  reflexivity.
Defined.

#[export] Instance host : Host := {|
  JS.StringToNumber := StringToNumber;
  JS.NumberToString := NumberToString;
  md5_digest := md5;
  md5_digest_length := md5_length;
|}.

(** *** Spreadsheets held in memory

    The service holds spreadsheets by their id.  It rejects a call that
    names a spreadsheet it does not hold, and answers every other call.  A
    range is read as far as the program writes ranges: a title, quoted or
    not, and the row after [!R]. *)

Record Grid : Type := {
  grid_title : string;
  grid_id : option Z;
  grid_rows : list (list Value);
}.

(** The sheets of one spreadsheet, and the spreadsheets of the service. *)
Definition Sheets : Type := list Grid.
Definition Book : Type := gmap string Sheets.

(** The title of a range and its first row, counted from one. *)
Definition rangeOf (range : string) : string * nat :=
  let l := list_ascii_of_string range in
  let notChar (c : ascii) (x : ascii) := negb (Ascii.eqb x c) in
  let '(title, rest) :=
    match l with
    | "'"%char :: l' => let '(t, r) := span (notChar "'"%char) l' in (t, drop 1 r)
    | _ => span (notChar "!"%char) l
    end in
  let row :=
    match rest with
    | "!"%char :: "R"%char :: r =>
        Z.to_nat (default 1%Z (digits 10 (span isDigit r).1))
    | _ => 1%nat
    end in
  (string_of_list_ascii title, row).

Definition isBlank (row : list Value) : bool :=
  forallb (fun v => match v with VString "" | VNull | VUndefined => true | _ => false end) row.

(** The rows of the table of a sheet: up to the last row that holds data. *)
Definition tableRows (rows : list (list Value)) : list (list Value) :=
  rev (span isBlank (rev rows)).2.

(** Overwrite the rows from row [k] on with [new]. *)
Definition writeRows (k : nat) (new rows : list (list Value)) : list (list Value) :=
  let before := take (k - 1) (rows ++ repeat [] (k - 1 - length rows)) in
  before ++ new ++ drop (k - 1 + length new) rows.

Definition onGrid (p : Grid -> bool) (f : list (list Value) -> list (list Value))
    (sheets : Sheets) : Sheets :=
  map (fun g =>
         if p g then {| grid_title := grid_title g; grid_id := grid_id g;
                        grid_rows := f (grid_rows g) |}
         else g) sheets.

Definition titled (t : string) (g : Grid) : bool := String.eqb (grid_title g) t.

Definition write (vr : ValueRange) (sheets : Sheets) : Sheets :=
  let '(t, k) := rangeOf (range vr) in
  onGrid (titled t) (writeRows k (values vr)) sheets.

Definition apply (r : Request) (sheets : Sheets) : Sheets :=
  match r with
  | addSheet id t _ _ => sheets ++ [{| grid_title := t; grid_id := id; grid_rows := [] |}]
  | updateCells id _ _ startRow _ rows _ =>
      onGrid (fun g => bool_decide (grid_id g = Some id))
        (writeRows (Datatypes.S startRow)
           (map (map (fun c => VString (userEnteredValue_stringValue c))) rows))
        sheets
  end.

(** Column [n], counted from one, in letters. *)
Fixpoint letters (fuel n : nat) : list ascii :=
  match fuel, n with
  | O, _ | _, O => []
  | Datatypes.S fuel', _ =>
      letters fuel' ((n - 1) / 26) ++ [ascii_of_nat (65 + (n - 1) mod 26)]
  end.

Definition noData : Data :=
  {| data_sheets := None; data_values := None; data_tableRange := None |}.

(** A cell as a read returns it: formatted, so a number comes as text. *)
Definition formatted (v : Value) : Value :=
  match v with
  | VNumber x => VString (NumberToString x)
  | VBoolean b => VString (if b then "TRUE" else "FALSE")
  | _ => v
  end.

(** The answer of one spreadsheet to a call, and what it becomes. *)
Definition answerOf (c : Call) (sheets : Sheets) : Data * Sheets :=
  match c with
  | spreadsheets_get _ =>
      ({| data_sheets := Some (map (fun g => {| title := Some (grid_title g) |}) sheets);
          data_values := None; data_tableRange := None |}, sheets)
  | spreadsheets_batchUpdate _ requests =>
      (noData, fold_left (fun b r => apply r b) requests sheets)
  | values_get _ range =>
      let '(t, k) := rangeOf range in
      let cell := g ← find (titled t) sheets; row ← grid_rows g !! (k - 1)%nat; row !! 0%nat in
      ({| data_sheets := None; data_values := (fun v => [[formatted v]]) <$> cell;
          data_tableRange := None |}, sheets)
  | values_update _ range values _ =>
      (noData, write {| range := range; values := values |} sheets)
  | values_append _ range _ values =>
      let '(t, _) := rangeOf range in
      let table := default [] ((fun g => tableRows (grid_rows g)) <$> find (titled t) sheets) in
      let width := max 1 (length (default [] (head table))) in
      let tableRange :=
        match table with
        | [] => None
        | _ => Some (t +:+ "!A1:" +:+ string_of_list_ascii (letters width width)
                       +:+ decimal (Z.of_nat (length table)))
        end in
      ({| data_sheets := None; data_values := None; data_tableRange := tableRange |},
       onGrid (titled t) (fun rows => tableRows rows ++ values) sheets)
  | values_batchUpdate _ data _ _ =>
      (noData, fold_left (fun b vr => write vr b) data sheets)
  end.

(** The spreadsheet a call names. *)
Definition addressee (c : Call) : string :=
  match c with
  | spreadsheets_get id | spreadsheets_batchUpdate id _ | values_get id _
  | values_update id _ _ _ | values_append id _ _ _ | values_batchUpdate id _ _ _ => id
  end.

Definition answer (c : Call) (book : Book) : Result Data * Book :=
  match book !! addressee c with
  | None => (Throw (GaxiosError 404 "Requested entity was not found."), book)
  | Some sheets =>
      let '(data, sheets') := answerOf c sheets in
      (Ok data, <[addressee c := sheets']> book)
  end.

#[export] Instance memory : SheetsClient Book := {| send := answer |}.

(** *** An example database: the scenario of the specification *)

Definition transfers : Table.t :=
  Table.new "transfers"
    [("id", Column_ Numeric None); ("name", Column_ types.String (Some (Some true)))].

Definition db : Database :=
  database.new {| options_tables := [("transfers", transfers)];
                  options_spreadsheetId := "sheet-A" |}.

(** The service holds the spreadsheet of the database, which is empty, and
    the spreadsheet that [getNextRowIndex] names, which has a sheet
    [transfers] with its header row. *)
Definition book0 : Book :=
  <["sheet-A" := []]>
    (<["1g6aHhV7-EsB6SRmM9KIQq9y_Mm4ZVfMw_5aK79NvDXg" :=
         [{| grid_title := "transfers"; grid_id := None;
             grid_rows := [[VString "id"; VString "name"]] |}]]> ∅).

Definition world0 : World Book :=
  {| this := db; remote := book0; trace := []; scopes := [] |}.

Definition one : Record_ := <["id" := VNumber 1]> (<["name" := VNull]> ∅).
Definition two : Record_ := <["id" := VNumber 2]> ∅.

(** The world once [connect] has run, and a callback that inserts the two
    records. *)
Definition world1 : World Book := (connect world0).2.

Definition callback : Store -> M Book unit :=
  script [insert_ "transfers" one; insert_ "transfers" two].

End reference.

(** ** The vocabulary of the statements

    Names for what the theorems below speak about: sequences of calls on a
    writer, the requests of the protocol, what a call leaves unchanged, what
    the program can do next, and what is assumed of the service. *)

Module statements.
Import types table sheets database.

Section Vocabulary.
Context `{Host} {S : Type} `{SheetsClient S}.

(** A sequence of [insert] and [insertMany] calls on a writer. *)
Definition inserts (calls : list (Record_ + list Record_)) (w : TableWriter) : TableWriter :=
  foldl (fun w c =>
           match c with
           | inl record => TableWriter.insert record w
           | inr records => TableWriter.insertMany records w
           end) w calls.

(** The records such a sequence passes, in the order it passes them. *)
Definition inserted (calls : list (Record_ + list Record_)) : list Record_ :=
  concat (map (fun c => match c with inl record => [record] | inr records => records end) calls).

(** A column with its [nullable] option replaced. *)
Definition withNullable (b : bool) (column : Column) : Column :=
  {| name := name column;
     data := {| type := type (data column); options := {| nullable := b |} |} |}.

(** The request of [advance]. *)
Definition checkpointUpdate (this : Database) (height : float) : Call :=
  values_update (spreadsheetId this) "squid_status!R1C1" [[VNumber height]] USER_ENTERED.

(** The calls of the reservation step: computations that do nothing but
    talk to the service. *)
Definition quiet {A} (m : M S A) : Prop :=
  forall w, this (m w).2 = this w /\ scopes (m w).2 = scopes w.

(** The batched update that commits a transaction: the requests of the
    tables and the write of the checkpoint. *)
Definition batchUpdate (this : Database) (requests : list ValueRange) (to : float) : Call :=
  values_batchUpdate (spreadsheetId this)
    (requests ++ [{| range := "squid_status!R1C1"; values := [[VNumber to]] |}])
    USER_ENTERED false.

(** The reservations [transact] starts, one per table alias. *)
Definition reservations (this : Database) : list (M S float) :=
  map (fun a => t ← lift (tableOf this a); getNextRowIndex (Table.name t))
    (keys (tables this)).

(** The error of a store that is used too late. *)
Definition closedError : Error := AssertionError (Some "Transaction was already closed").

(** Methods that leave the schema and the stores alone. *)
Definition keeps {A} (m : M S A) : Prop :=
  forall w,
    tables (this (m w).2) = tables (this w)
    /\ spreadsheetId (this (m w).2) = spreadsheetId (this w)
    /\ scopes (m w).2 = scopes w.

(** What the program can do next: a method of the database, or a use of a
    store. *)
Inductive Step : World S -> World S -> Prop :=
| step_connect w : Step w (connect w).2
| step_close w : Step w (close w).2
| step_advance height w : Step w (advance height w).2
| step_transact from to cb w : StoreOnly cb -> Step w (transact from to cb w).2
| step_get store name w : Step w (Store_get store name w).2
| step_insert store name record w : Step w (Store_insert store name record w).2
| step_insertMany store name records w : Step w (Store_insertMany store name records w).2.

(** The answers of the service to calls made one after the other, and the
    state it is left in. *)
Fixpoint sendAll (calls : list Call) (s : S) : list (Result Data) * S :=
  match calls with
  | [] => ([], s)
  | c :: calls' =>
      let r := send c s in
      let rs := sendAll calls' r.2 in
      (r.1 :: rs.1, rs.2)
  end.

(** The request [transact] pushes for a table alias and its row index. *)
Definition requestOf (this : Database) (chunk : Chunk) (ai : string * float)
  : Result ValueRange :=
  table ← tableOf this ai.1;
  writer ← match chunk !! ai.1 with
           | Some w => Ok w
           | None => Throw (TypeError "Cannot read properties of undefined (reading 'flush')")
           end;
  values ← TableWriter.flush writer;
  mret {| range := rowsRange table ai.2; values := values |}.

(** With the writers at hand, the requests are the rows of each, flushed,
    at its row index. *)
Definition writeOf (ei : (string * Table.t) * float) (rows : list (list Value)) : ValueRange :=
  {| range := rowsRange ei.1.2 ei.2; values := rows |}.

(** The writer of a table alias in the chunk of a store. *)
Definition buffered (w : World S) (store : Store) (alias : string) : option TableWriter :=
  sc ← scopes w !! store; chunk sc !! alias.

(** What it is for [/^.*![A-Z]+\d+:[A-Z]+(\d+)$/] to match a string with
    group [d]: the string is a prefix without line terminators, an
    exclamation mark, capitals, digits, a colon, capitals, and the digits
    [d]. *)
Definition matchesTableRange (s d : list ascii) : Prop :=
  exists pre c1 d1 c2,
    s = pre ++ "!"%char :: c1 ++ d1 ++ ":"%char :: c2 ++ d
    /\ dotStar (rev pre) = true
    /\ c1 <> [] /\ forallb isUpper c1 = true
    /\ d1 <> [] /\ forallb isDigit d1 = true
    /\ c2 <> [] /\ forallb isUpper c2 = true
    /\ d <> [] /\ forallb isDigit d = true.



(** The spreadsheet a call is addressed to. *)
Definition spreadsheetOf (c : Call) : string :=
  match c with
  | spreadsheets_get id | spreadsheets_batchUpdate id _ | values_get id _
  | values_update id _ _ _ | values_append id _ _ _ | values_batchUpdate id _ _ _ => id
  end.

(** A request that creates a sheet titled [squid_status]. *)
Definition createsStatus (c : Call) : bool :=
  match c with
  | spreadsheets_batchUpdate _ requests =>
      existsb (fun r => match r with
                        | addSheet _ t _ _ => String.eqb t "squid_status"
                        | _ => false
                        end) requests
  | _ => false
  end.

(** How many of the calls of a trace create the checkpoint sheet. *)
Definition creations (calls : list (Call * Result Data)) : nat :=
  length (filter (fun cr => createsStatus cr.1 = true) calls).

(** The calls [connect] issues: reading the spreadsheet or a range, and
    batches of sheet requests. *)
Definition schemaCall (c : Call) : bool :=
  match c with
  | spreadsheets_get _ | values_get _ _ | spreadsheets_batchUpdate _ _ => true
  | _ => false
  end.

(** [Primitive], the declared result of [serialize]: a string, a number or
    a boolean. *)
Definition isPrimitive (v : Value) : bool :=
  match v with
  | VString _ | VNumber _ | VBoolean _ => true
  | _ => false
  end.

(** The four types that types.ts exports. *)
Definition exported : list Type_ := [types.String; Numeric; DateTime; Boolean].

(** The value of a decimal numeral, as [BigInt(s)] reads it. *)
Definition BigInt_ofString (s : string) : option Z :=
  Z.of_int <$> NilZero.int_of_string s.

(** The calls that a callback's statements make on the writer of one table
    alias, up to the first [throw]. *)
Fixpoint callsOn (alias : string) (body : list Statement) : list (Record_ + list Record_) :=
  match body with
  | [] => []
  | insert_ a record :: body' =>
      if String.eqb a alias then inl record :: callsOn alias body' else callsOn alias body'
  | insertMany_ a records :: body' =>
      if String.eqb a alias then inr records :: callsOn alias body' else callsOn alias body'
  | throw_ _ :: _ => []
  end.

(** The names for which [store[name]] is not [undefined] although no table
    has that alias: the own property of a store, and the properties every
    object inherits. *)
Definition objectProperties : list string :=
  ["chunk"; "constructor"; "__proto__"; "hasOwnProperty"; "isPrototypeOf";
   "propertyIsEnumerable"; "toLocaleString"; "toString"; "valueOf";
   "__defineGetter__"; "__defineSetter__"; "__lookupGetter__"; "__lookupSetter__"].

(** The aliases with which a store can be constructed: the constructor
    assigns the property [chunk], which an alias of that name would turn
    into a getter. *)
Definition storable (this : Database) : Prop := "chunk" ∉ keys (tables this).

(** A callback that inserts into declared tables and does not throw. *)
Definition declared (this : Database) (body : list Statement) : Prop :=
  Forall (fun s =>
            match s with
            | insert_ a _ | insertMany_ a _ => a ∈ keys (tables this)
            | throw_ _ => False
            end) body.

(** The requests that add the sheet of a table under an id and write its
    header row: a cell per column, with the column's name and format. *)
Definition tableRequests (t : Table.t) (sheetId : Z) : list Request :=
  [ addSheet (Some sheetId) (Table.name t) 1 (length (Table.columns t));
    updateCells sheetId 0 (length (Table.columns t)) 0 1
      [ map (fun c =>
               {| userEnteredValue_stringValue := name c;
                  userEnteredFormat_numberFormat_type := formatType (type (data c)) |})
          (Table.columns t) ]
      "userEnteredValue(stringValue),userEnteredFormat(numberFormat)" ].

(** What a run of calls shows of the service.  It answered: no call was
    rejected. *)
Definition answered (calls : list (Call * Result Data)) : Prop :=
  Forall (fun cr => isOk cr.2 = true) calls.

(** Every spreadsheet the run read lists a sheet titled [squid_status]. *)
Definition listsStatus (calls : list (Call * Result Data)) : Prop :=
  Forall (fun cr =>
            match cr with
            | (spreadsheets_get _, Ok spreadsheet) =>
                exists sheets sheet,
                  data_sheets spreadsheet = Some sheets
                  /\ sheet ∈ sheets /\ title sheet = Some "squid_status"
            | _ => True
            end) calls.

(** Every range the run read came without a value: no rows, an empty first
    row, or a first cell that is null. *)
Definition readsEmpty (calls : list (Call * Result Data)) : Prop :=
  Forall (fun cr =>
            match cr with
            | (values_get _ _, Ok data) =>
                match data_values data with
                | Some ((v :: _) :: _) => eq_null v = true
                | _ => True
                end
            | _ => True
            end) calls.

End Vocabulary.
End statements.

(** * Properties *)

Import types table sheets database statements.

(** ** Loops that push are maps *)

Section Loops.
Context {A B : Type}.

Lemma forOf_push (f : A -> Result B) (l : list A) (acc : list B) :
  TableWriter.forOf (fun acc x => y ← f x; mret (acc ++ [y])) l acc
  = (ys ← mapM f l; mret (acc ++ ys)).
Proof.
  revert acc. induction l as [|x l IH]; intros acc; simpl.
  - by rewrite app_nil_r.
  - destruct (f x) as [y|e]; simpl; [|done].
    rewrite IH. destruct (mapM f l) as [ys|e]; simpl; [|done].
    by rewrite <- app_assoc.
Qed.

Lemma mapM_Ok_Forall2 (f : A -> Result B) (l : list A) (k : list B) :
  mapM f l = Ok k -> Forall2 (fun x y => f x = Ok y) l k.
Proof.
  revert k. induction l as [|x l IH]; intros k; simpl.
  - intros [= <-]. constructor.
  - destruct (f x) as [y|e] eqn:Hx; simpl; [|done].
    destruct (mapM f l) as [ys|e]; simpl; [|done].
    intros [= <-]. constructor; auto.
Qed.

Lemma mapM_Ok_length (f : A -> Result B) (l : list A) (k : list B) :
  mapM f l = Ok k -> length k = length l.
Proof. intros Hk. symmetry. exact (Forall2_length _ _ _ (mapM_Ok_Forall2 _ _ _ Hk)). Qed.

Lemma mapM_cons (f : A -> Result B) (x : A) (l : list A) :
  mapM f (x :: l) = (y ← f x; k ← mapM f l; mret (y :: k)).
Proof. reflexivity. Qed.

Lemma mapM_ext_in (f g : A -> Result B) (l : list A) :
  (forall x, x ∈ l -> f x = g x) -> mapM f l = mapM g l.
Proof.
  induction l as [|x l IH]; intros Hfg; simpl; [done|].
  rewrite (Hfg x) by constructor.
  rewrite IH; [done|]. intros y Hy. apply Hfg. by constructor.
Qed.
End Loops.

(** ** The pattern of a table range *)

Section Pattern.
Implicit Types (l a b : list ascii) (p : ascii -> bool).

Lemma span_spec p l a b :
  span p l = (a, b) ->
  l = a ++ b /\ forallb p a = true /\ (forall x b', b = x :: b' -> p x = false).
Proof.
  revert a b. induction l as [|x l IH]; intros a b; simpl.
  - intros [= <- <-]. done.
  - destruct (p x) eqn:Hx.
    + destruct (span p l) as [a' b'] eqn:Hspan. intros [= <- <-].
      destruct (IH _ _ eq_refl) as (-> & Ha & Hb). simpl. by rewrite Hx, Ha.
    + intros [= <- <-]. repeat split. by intros ? ? [= <- <-].
Qed.

Lemma span_app p a b :
  forallb p a = true -> (forall x b', b = x :: b' -> p x = false) ->
  span p (a ++ b) = (a, b).
Proof.
  intros Ha Hb. induction a as [|x a IH]; simpl in *.
  - destruct b as [|y b]; [done|]. simpl. by rewrite (Hb y b).
  - apply andb_true_iff in Ha as [-> Ha]. by rewrite IH.
Qed.

Lemma forallb_rev p l : forallb p (rev l) = forallb p l.
Proof.
  induction l as [|x l IH]; simpl; [done|].
  rewrite forallb_app, IH. simpl. by rewrite andb_true_r, andb_comm.
Qed.

Lemma upper_not_digit (c : ascii) : isUpper c = true -> isDigit c = false.
Proof.
  unfold isUpper, isDigit. intros Hu.
  apply andb_true_iff in Hu as [Hu _]. apply Nat.leb_le in Hu.
  apply andb_false_iff. right. apply Nat.leb_gt. lia.
Qed.

Lemma digit_not_upper (c : ascii) : isDigit c = true -> isUpper c = false.
Proof.
  intros Hd. destruct (isUpper c) eqn:Hu; [|done].
  apply upper_not_digit in Hu. congruence.
Qed.

Lemma nonempty_length (l : list ascii) : (0 <? length l)%nat = true <-> l <> [].
Proof. destruct l; simpl; split; try done. Qed.

(** X1.  [tableRangeIndex] decides whether the pattern of [getNextRowIndex]
    matches a table range, and returns the digits of its last group: the
    last row of the range. *)
Lemma tableRangeIndex_spec (s : string) (d : list ascii) :
  tableRangeIndex s = Some (string_of_list_ascii d)
  <-> matchesTableRange (list_ascii_of_string s) d.
Proof.
  unfold tableRangeIndex, matchesTableRange. split.
  - destruct (span isDigit _) as [d2 r1] eqn:H1.
    destruct (span isUpper r1) as [c2 r2] eqn:H2.
    destruct r2 as [|colon r3]; [done|].
    destruct (Ascii.eqb_spec colon ":"%char) as [->|Hne];
      [|by destruct colon as [[] [] [] [] [] [] [] []]].
    destruct (span isDigit r3) as [d1 r4] eqn:H3.
    destruct (span isUpper r4) as [c1 r5] eqn:H4.
    destruct r5 as [|bang r6]; [done|].
    destruct (Ascii.eqb_spec bang "!"%char) as [->|Hne];
      [|by destruct bang as [[] [] [] [] [] [] [] []]].
    destruct (_ && _) eqn:Hall; [|done]. intros [= Hd].
    apply (f_equal list_ascii_of_string) in Hd.
    rewrite !list_ascii_of_string_of_list_ascii in Hd. subst d.
    repeat (apply andb_true_iff in Hall as [Hall ?]).
    apply span_spec in H1 as (Hr & Hd2 & _), H2 as (-> & Hc2 & _),
      H3 as (-> & Hd1 & _), H4 as (-> & Hc1 & _).
    exists (rev r6), (rev c1), (rev d1), (rev c2).
    rewrite rev_involutive, !forallb_rev.
    split.
    { apply (f_equal (@rev ascii)) in Hr. rewrite rev_involutive in Hr. rewrite Hr.
      rewrite !rev_app_distr. simpl. rewrite !rev_app_distr. simpl.
      by rewrite <- !app_assoc. }
    repeat split; try done;
      match goal with
      | |- rev ?l <> [] => intros Hnil; apply (f_equal (@length ascii)) in Hnil;
                           rewrite length_rev in Hnil; by destruct l
      end.
  - intros (pre & c1 & d1 & c2 & Hs & Hpre & Hc1n & Hc1 & Hd1n & Hd1 & Hc2n & Hc2 & Hdn & Hd).
    assert (Hrev : rev (list_ascii_of_string s)
                   = rev d ++ rev c2 ++ ":"%char :: rev d1 ++ rev c1 ++ "!"%char :: rev pre).
    { rewrite Hs.
      repeat first [rewrite rev_app_distr | progress simpl | rewrite <- app_assoc].
      reflexivity. }
    rewrite Hrev. clear Hrev Hs.
    assert (Hlast : forall p l, l <> [] -> forallb p l = true ->
                      forall k, exists x l', rev l ++ k = x :: l' /\ p x = true).
    { intros p l Hl Hp k. destruct (rev l) as [|x l'] eqn:Hrev.
      - apply (f_equal (@length ascii)) in Hrev. rewrite length_rev in Hrev. by destruct l.
      - exists x, (l' ++ k). split; [done|].
        assert (Hx : forallb p (rev l) = true) by (by rewrite forallb_rev).
        rewrite Hrev in Hx. simpl in Hx. by apply andb_true_iff in Hx as [? _]. }
    rewrite (span_app isDigit (rev d)).
    2:{ by rewrite forallb_rev. }
    2:{ intros x b' Hb.
        destruct (Hlast isUpper c2 Hc2n Hc2
                    (":"%char :: rev d1 ++ rev c1 ++ "!"%char :: rev pre))
          as (y & l' & Hy & Hp).
        rewrite Hy in Hb. injection Hb as <- _. by apply upper_not_digit. }
    rewrite (span_app isUpper (rev c2)).
    2:{ by rewrite forallb_rev. }
    2:{ by intros x b' [= <- _]. }
    rewrite (span_app isDigit (rev d1)).
    2:{ by rewrite forallb_rev. }
    2:{ intros x b' Hb. destruct (Hlast isUpper c1 Hc1n Hc1 ("!"%char :: rev pre))
          as (y & l' & Hy & Hp). rewrite Hy in Hb. injection Hb as <- _.
        by apply upper_not_digit. }
    rewrite (span_app isUpper (rev c1)).
    2:{ by rewrite forallb_rev. }
    2:{ by intros x b' [= <- _]. }
    rewrite !length_rev, Hpre.
    rewrite !(proj2 (nonempty_length _)) by done. simpl.
    by rewrite rev_involutive.
Qed.

End Pattern.

(** ** TableWriter *)

Lemma flush_mapM (w : TableWriter) :
  TableWriter.flush w
  = mapM (fun record => mapM (TableWriter.cell record) (columns w)) (records w).
Proof.
  unfold TableWriter.flush.
  rewrite (forOf_push (fun record => TableWriter.forOf (TableWriter.pushValue record) (columns w) [])).
  simpl.
  assert (Hin : forall record,
             TableWriter.forOf (TableWriter.pushValue record) (columns w) []
             = mapM (TableWriter.cell record) (columns w)).
  { intros record. unfold TableWriter.pushValue.
    rewrite (forOf_push (TableWriter.cell record)). simpl.
    by destruct (mapM _ _). }
  rewrite (mapM_ext_in _ (fun record => mapM (TableWriter.cell record) (columns w)))
    by (intros; apply Hin).
  by destruct (mapM _ _).
Qed.



Lemma inserts_records (calls : list (Record_ + list Record_)) (w : TableWriter) :
  records (inserts calls w) = records w ++ inserted calls
  /\ columns (inserts calls w) = columns w.
Proof.
  revert w. induction calls as [|[record|rs] calls IH]; intros w; simpl.
  - by rewrite app_nil_r.
  - destruct (IH (TableWriter.insert record w)) as [-> ->]. simpl.
    by rewrite <- app_assoc.
  - destruct (IH (TableWriter.insertMany rs w)) as [-> ->]. simpl.
    by rewrite <- app_assoc.
Qed.




Lemma cell_withNullable (b : bool) (record : Record_) (column : Column) :
  TableWriter.cell record (withNullable b column) = TableWriter.cell record column.
Proof. reflexivity. Qed.

Lemma mapM_fmap {A B C} (g : A -> B) (f : B -> Result C) (l : list A) :
  mapM f (g <$> l) = mapM (fun x => f (g x)) l.
Proof.
  induction l as [|x l IH]; csimpl; [done|].
  destruct (f (g x)); csimpl; [|done].
  by f_equal.
Qed.




(** C3 (a defect of the code).  [DateTime().serialize] checks nothing: given
    a number, it returns a number; given a boolean, it converts it.  The
    other three types reject such values. *)
Theorem DateTime_serialize_unchecked `{Host} :
  (forall x, serialize DateTime (VNumber x) = Ok (VNumber (x / 86400000 + 25569)%float))
  /\ serialize DateTime (VNumber 0) = Ok (VNumber 25569)
  /\ serialize DateTime (VBoolean true) = Ok (VNumber (1 / 86400000 + 25569)%float)
  /\ serialize types.String (VNumber 0) = Throw (AssertionError None)
  /\ serialize Numeric (VString "0") = Throw (PlainError "")
  /\ serialize Boolean (VNumber 0) = Throw (AssertionError (Some "Invalid boolean")).
Proof. repeat split. Qed.

(** ** Database *)

Section Database.
Context `{Host} {S : Type} `{SheetsClient S}.
Implicit Types (w : World S) (store : Store).

Lemma call_eq (c : Call) w :
  call c w
  = ((send c (remote w)).1,
     {| this := this w; remote := (send c (remote w)).2;
        trace := trace w ++ [(c, (send c (remote w)).1)]; scopes := scopes w |}).
Proof. unfold call. by destruct (send c (remote w)). Qed.

Lemma advance_eq (height : float) w :
  advance height w
  = if (lastCommitted (this w) =? height)%float then (Ok tt, w)
    else ((fun _ => tt) <$> (send (checkpointUpdate (this w) height) (remote w)).1,
          (call (checkpointUpdate (this w) height) w).2).
Proof.
  unfold advance, checkpointUpdate, mbind, M_bind, getThis, mret, M_ret. simpl.
  destruct (_ =? _)%float; [done|].
  rewrite !call_eq. simpl.
  by destruct (send _ _) as [[d|e] s].
Qed.

(** C8.  When [height] equals ([==]) the checkpoint in memory, [advance]
    returns without a call and leaves everything as it was.  Otherwise it
    issues exactly one call: the update of the cell [squid_status!R1C1] of the
    database's spreadsheet with [height]; the fields of the database and the
    stores are left as they were, and the call's outcome is the outcome of
    [advance]. *)
Theorem advance_checkpoint_only (height : float) w :
  if (lastCommitted (this w) =? height)%float then advance height w = (Ok tt, w)
  else
    let c := values_update (spreadsheetId (this w)) "squid_status!R1C1"
               [[VNumber height]] USER_ENTERED in
    let w' := (advance height w).2 in
    trace w' = trace w ++ [(c, (send c (remote w)).1)]
    /\ remote w' = (send c (remote w)).2
    /\ this w' = this w
    /\ scopes w' = scopes w
    /\ (advance height w).1 = (fun _ => tt) <$> (send c (remote w)).1.
Proof.
  rewrite advance_eq. destruct (_ =? _)%float; [done|].
  rewrite call_eq. simpl. done.
Qed.

(** *** Callbacks that only use the store *)

Lemma sameShape_refl (sc : Scope) : sameShape sc sc.
Proof. by split. Qed.

Lemma sameShape_trans (a b c : Scope) : sameShape a b -> sameShape b c -> sameShape a c.
Proof.
  intros [Hab Hab'] [Hbc Hbc']. split; [congruence|].
  intros alias. by rewrite Hbc', Hab'.
Qed.

Lemma buffersOnly_refl w : buffersOnly w w.
Proof.
  repeat split. apply Forall2_same_length_lookup_2; [done|].
  intros i sc sc' Hsc Hsc'. rewrite Hsc in Hsc'. injection Hsc' as <-. apply sameShape_refl.
Qed.

Lemma buffersOnly_trans w1 w2 w3 :
  buffersOnly w1 w2 -> buffersOnly w2 w3 -> buffersOnly w1 w3.
Proof.
  intros (? & ? & ? & H12) (? & ? & ? & H23).
  repeat split; try congruence.
  eapply Forall2_trans; [|exact H12|exact H23].
  intros a b c. apply sameShape_trans.
Qed.

Lemma updateWriter_buffersOnly (ref : WriterRef) (f : TableWriter -> TableWriter) w :
  (forall wr, columns (f wr) = columns wr) ->
  (updateWriter ref f w).1 = Ok tt /\ buffersOnly w (updateWriter ref f w).2.
Proof.
  intros Hf. split; [done|]. repeat split. simpl.
  apply Forall2_same_length_lookup_2; [by rewrite length_alter|].
  intros i sc sc' Hsc Hsc'.
  destruct (decide (i = ref.1)) as [->|Hne].
  - rewrite list_lookup_alter_eq, Hsc in Hsc'. injection Hsc' as <-.
    split; [done|]. intros alias. simpl.
    destruct (decide (alias = ref.2)) as [->|Hne].
    + rewrite lookup_alter_eq. destruct (chunk sc !! ref.2); simpl; [|done].
      by rewrite Hf.
    + by rewrite lookup_alter_ne.
  - rewrite list_lookup_alter_ne, Hsc in Hsc' by done. injection Hsc' as <-.
    apply sameShape_refl.
Qed.

Lemma Store_get_world store (name : string) w : (Store_get store name w).2 = w.
Proof.
  unfold Store_get, mbind, M_bind, getThis, storeChunk, mret, M_ret. simpl.
  destruct (bool_decide _); [|done].
  destruct (scopes w !! store) as [sc|]; [|done].
  by destruct (open sc).
Qed.

Lemma Store_insert_buffersOnly store (name : string) (record : Record_) w :
  buffersOnly w (Store_insert store name record w).2.
Proof.
  unfold Store_insert, mbind, M_bind.
  pose proof (Store_get_world store name w) as Hw.
  destruct (Store_get store name w) as [[[ref|]|e] w']; simpl in Hw; subst w'.
  - by apply updateWriter_buffersOnly.
  - apply buffersOnly_refl.
  - apply buffersOnly_refl.
Qed.

Lemma Store_insertMany_buffersOnly store (name : string) (rs : list Record_) w :
  buffersOnly w (Store_insertMany store name rs w).2.
Proof.
  unfold Store_insertMany, mbind, M_bind.
  pose proof (Store_get_world store name w) as Hw.
  destruct (Store_get store name w) as [[[ref|]|e] w']; simpl in Hw; subst w'.
  - by apply updateWriter_buffersOnly.
  - apply buffersOnly_refl.
  - apply buffersOnly_refl.
Qed.

Lemma script_StoreOnly (body : list Statement) : StoreOnly (S:=S) (script body).
Proof.
  intros store. induction body as [|[alias record|alias rs|e] body IH]; intros w.
  - apply buffersOnly_refl.
  - simpl. unfold mbind, M_bind.
    pose proof (Store_insert_buffersOnly store alias record w) as Hstep.
    destruct (Store_insert store alias record w) as [[[]|e] w']; [|done].
    eapply buffersOnly_trans; [exact Hstep|apply IH].
  - simpl. unfold mbind, M_bind.
    pose proof (Store_insertMany_buffersOnly store alias rs w) as Hstep.
    destruct (Store_insertMany store alias rs w) as [[[]|e] w']; [|done].
    eapply buffersOnly_trans; [exact Hstep|apply IH].
  - apply buffersOnly_refl.
Qed.

(** *** The shape of [transact] *)

Lemma transact_eq (from to : float) (cb : Store -> M S unit) w :
  transact from to cb w
  = let store := length (scopes w) in
    let r := commit store to cb (newStore w).2 in
    (r.1, (closeStore store r.2).2).
Proof.
  unfold transact, try_catch, mbind, M_bind, throw. simpl.
  by destruct (commit _ _ _ _) as [[[]|e] w1].
Qed.

Lemma quiet_call (c : Call) : quiet (call c).
Proof. intros w. by rewrite call_eq. Qed.

Lemma quiet_getNextRowIndex (sheet : string) : quiet (getNextRowIndex sheet).
Proof.
  intros w. unfold getNextRowIndex. rewrite call_eq. done.
Qed.

Lemma quiet_lift_bind {A B} (r : Result A) (k : A -> M S B) :
  (forall a, quiet (k a)) -> quiet (lift r ≫= k).
Proof.
  intros Hk w. unfold mbind, M_bind, lift. destruct r as [a|e]; [apply Hk|done].
Qed.

Lemma quiet_Promise_all {A} (ps : list (M S A)) :
  Forall quiet ps -> quiet (Promise_all ps).
Proof.
  induction 1 as [|p ps Hp _ IH]; intros w; simpl; [done|].
  specialize (Hp w). destruct (p w) as [r w1]. simpl in Hp.
  specialize (IH w1). destruct (Promise_all ps w1) as [rs w2]. simpl in *.
  destruct Hp, IH. split; congruence.
Qed.

Lemma commit_eq store (to : float) (cb : Store -> M S unit) w :
  commit store to cb w
  = match cb store w with
    | (Throw e, w1) => (Throw e, w1)
    | (Ok _, w1) =>
        match Promise_all (reservations (this w1)) w1 with
        | (Throw e, w2) => (Throw e, w2)
        | (Ok newRowIndecies, w2) =>
            match TableWriter.forOf
                    (pushRequest (this w1) (default ∅ (chunk <$> scopes w2 !! store)))
                    (zip (keys (tables (this w1))) newRowIndecies) [] with
            | Throw e => (Throw e, w2)
            | Ok requests =>
                match call (batchUpdate (this w1) requests to) w2 with
                | (Throw e, w3) => (Throw e, w3)
                | (Ok _, w3) => setLastCommitted to w3
                end
            end
        end
    end.
Proof.
  unfold commit, mbind, M_bind, getThis, scopeChunk, lift.
  destruct (cb store w) as [[[]|e] w1]; [|done].
  fold (reservations (this w1)).
  destruct (Promise_all _ w1) as [[idxs|e] w2]; [|done].
  by destruct (TableWriter.forOf _ _ _).
Qed.

Lemma quiet_reservations (this : Database) : quiet (Promise_all (reservations this)).
Proof.
  apply quiet_Promise_all, Forall_forall. intros p Hp.
  apply list_elem_of_In, in_map_iff in Hp as (a & <- & _).
  apply quiet_lift_bind. intros t. apply quiet_getNextRowIndex.
Qed.

Lemma buffersOnly_open w w' : buffersOnly w w' -> open <$> scopes w' = open <$> scopes w.
Proof.
  intros (_ & _ & _ & Hscopes).
  induction Hscopes as [|sc sc' ? ? [Ho _] _ IH]; [done|].
  csimpl. by rewrite Ho, IH.
Qed.

(** What the [try] block of [transact] leaves of the fields of the database
    and of the [open] variables. *)
Lemma commit_frame store (to : float) (cb : Store -> M S unit) w :
  StoreOnly cb ->
  let r := commit store to cb w in
  tables (this r.2) = tables (this w)
  /\ spreadsheetId (this r.2) = spreadsheetId (this w)
  /\ lastCommitted (this r.2) = (if isOk r.1 then to else lastCommitted (this w))
  /\ open <$> scopes r.2 = open <$> scopes w.
Proof.
  intros Hcb. cbv zeta. rewrite commit_eq.
  pose proof (buffersOnly_open _ _ (Hcb store w)) as Hopen.
  destruct (Hcb store w) as (Hthis & _ & _ & _).
  destruct (cb store w) as [[[]|e] w1]; simpl in *; [|by rewrite Hthis].
  destruct (quiet_reservations (this w1) w1) as [Hthis2 Hscopes2].
  destruct (Promise_all _ w1) as [[idxs|e] w2]; simpl in *;
    [|by rewrite Hthis2, Hscopes2, Hthis].
  destruct (TableWriter.forOf _ _ _) as [requests|e]; simpl;
    [|by rewrite Hthis2, Hscopes2, Hthis].
  rewrite call_eq. simpl.
  destruct (send _ _).1; simpl; by rewrite ?Hthis2, ?Hscopes2, ?Hthis.
Qed.

Lemma closeStore_eq store w :
  closeStore store w
  = (Ok tt, {| this := this w; remote := remote w; trace := trace w;
               scopes := alter (fun sc => {| open := false; chunk := chunk sc |}) store
                           (scopes w) |}).
Proof. reflexivity. Qed.

(** What [transact] leaves of the world, for a callback that only uses the
    store: the outcome is that of the [try] block, the schema is untouched,
    [lastCommitted] changes on success only, the store it made is closed, and
    the [open] variables of older stores are what they were. *)
Lemma transact_frame (from to : float) (cb : Store -> M S unit) w :
  StoreOnly cb ->
  let store := length (scopes w) in
  let r := transact from to cb w in
  r.1 = (commit store to cb (newStore w).2).1
  /\ tables (this r.2) = tables (this w)
  /\ spreadsheetId (this r.2) = spreadsheetId (this w)
  /\ lastCommitted (this r.2) = (if isOk r.1 then to else lastCommitted (this w))
  /\ open <$> scopes r.2 !! store = Some false
  /\ forall i, (i < store)%nat -> open <$> scopes r.2 !! i = open <$> scopes w !! i.
Proof.
  intros Hcb. cbv zeta. rewrite transact_eq. cbv zeta.
  pose proof (commit_frame (length (scopes w)) to cb (newStore w).2 Hcb) as Hframe.
  cbv zeta in Hframe.
  set (c := commit (length (scopes w)) to cb (newStore w).2) in *.
  destruct Hframe as (Htables & Hid & Hlast & Hopen).
  rewrite closeStore_eq. cbn [fst snd this scopes].
  split; [done|]. split; [done|]. split; [done|]. split; [done|].
  simpl in Hopen. split.
  - rewrite list_lookup_alter_eq.
    assert (Hsc : open <$> scopes c.2 !! length (scopes w) = Some true).
    { rewrite <- list_lookup_fmap, Hopen.
      rewrite fmap_app, lookup_app_r by (by rewrite length_fmap).
      by rewrite length_fmap, Nat.sub_diag. }
    destruct (scopes _ !! _); [done|discriminate].
  - intros i Hi. rewrite list_lookup_alter_ne by lia.
    rewrite <- !list_lookup_fmap, Hopen, fmap_app.
    by rewrite lookup_app_l by (by rewrite length_fmap).
Qed.

(** C5.  [transact] throws what the first failing step throws: the
    callback, a reservation, a [flush], or the batched update; it returns
    when none fails.  When it throws, [lastCommitted] is what it was before
    the call; when it returns, [lastCommitted] is [to].  Either way the
    [open] variable of the store it made is [false] afterwards. *)
Theorem transact_outcome (from to : float) (cb : Store -> M S unit) w :
  StoreOnly cb ->
  let store := length (scopes w) in
  let r := transact from to cb w in
  r.1 = match cb store (newStore w).2 with
        | (Throw e, _) => Throw e
        | (Ok _, w1) =>
            match Promise_all (reservations (this w1)) w1 with
            | (Throw e, _) => Throw e
            | (Ok newRowIndecies, w2) =>
                match TableWriter.forOf
                        (pushRequest (this w1) (default ∅ (chunk <$> scopes w2 !! store)))
                        (zip (keys (tables (this w1))) newRowIndecies) [] with
                | Throw e => Throw e
                | Ok requests =>
                    match (call (batchUpdate (this w1) requests to) w2).1 with
                    | Throw e => Throw e
                    | Ok _ => Ok tt
                    end
                end
            end
        end
  /\ match r.1 with
     | Throw _ => lastCommitted (this r.2) = lastCommitted (this w)
     | Ok _ => lastCommitted (this r.2) = to
     end
  /\ open <$> scopes r.2 !! store = Some false.
Proof.
  intros Hcb. cbv zeta.
  destruct (transact_frame from to cb w Hcb) as (Hr & _ & _ & Hlast & Hopen & _).
  split; [|split; [|done]].
  - rewrite Hr, commit_eq.
    destruct (cb _ _) as [[[]|e] w1]; [|done].
    destruct (Promise_all _ w1) as [[idxs|e] w2]; [|done].
    destruct (TableWriter.forOf _ _ _) as [requests|e]; [|done].
    by destruct (call _ w2) as [[d|e] w3].
  - rewrite Hlast. by destruct (transact from to cb w).1.
Qed.

(** *** A closed store *)

Lemma closed_Store_get store (name : string) w :
  name ∈ keys (tables (this w)) ->
  open <$> scopes w !! store = Some false ->
  Store_get store name w = (Throw closedError, w).
Proof.
  intros Hname Hclosed.
  unfold Store_get, mbind, M_bind, getThis, storeChunk.
  rewrite bool_decide_eq_true_2 by done.
  destruct (scopes w !! store) as [sc|]; [|done].
  injection Hclosed as ->. done.
Qed.

Lemma closed_Store_insert store (name : string) (record : Record_) w :
  name ∈ keys (tables (this w)) ->
  open <$> scopes w !! store = Some false ->
  Store_insert store name record w = (Throw closedError, w).
Proof.
  intros Hname Hclosed. unfold Store_insert, mbind, M_bind.
  by rewrite closed_Store_get.
Qed.

Lemma closed_Store_insertMany store (name : string) (rs : list Record_) w :
  name ∈ keys (tables (this w)) ->
  open <$> scopes w !! store = Some false ->
  Store_insertMany store name rs w = (Throw closedError, w).
Proof.
  intros Hname Hclosed. unfold Store_insertMany, mbind, M_bind.
  by rewrite closed_Store_get.
Qed.

Lemma keeps_bind {A B} (m : M S A) (k : A -> M S B) :
  keeps m -> (forall a, keeps (k a)) -> keeps (m ≫= k).
Proof.
  intros Hm Hk w. unfold mbind, M_bind.
  destruct (Hm w) as (? & ? & ?). destruct (m w) as [[a|e] w1]; simpl in *; [|done].
  destruct (Hk a w1) as (? & ? & ?). repeat split; congruence.
Qed.

Lemma keeps_ret {A} (a : A) : keeps (S:=S) (mret a).
Proof. done. Qed.

Lemma keeps_lift {A} (r : Result A) : keeps (S:=S) (lift r).
Proof. done. Qed.

Lemma keeps_getThis : keeps (S:=S) getThis.
Proof. done. Qed.

Lemma keeps_setLastCommitted (x : float) : keeps (S:=S) (setLastCommitted x).
Proof. done. Qed.

Lemma keeps_call (c : Call) : keeps (call c).
Proof. intros w. by rewrite call_eq. Qed.

Create HintDb keeps.
#[local] Hint Resolve keeps_ret keeps_lift keeps_getThis keeps_setLastCommitted keeps_call : keeps.
#[local] Hint Extern 2 (keeps (_ ≫= _)) => apply keeps_bind; [|intros ?] : keeps.

Lemma keeps_migrate : keeps migrate.
Proof.
  unfold migrate. apply keeps_bind; [auto with keeps|]. intros this.
  apply keeps_bind; [auto with keeps|]. intros spreadsheet.
  destruct (0 <? _)%nat; auto 10 with keeps.
Qed.

Lemma keeps_connect : keeps connect.
Proof.
  unfold connect. apply keeps_bind; [auto with keeps|]. intros this.
  apply keeps_bind; [auto with keeps|]. intros spreadsheet.
  apply keeps_bind.
  - destruct (findSheet _ _); auto 10 with keeps.
  - intros _. apply keeps_bind; [apply keeps_migrate|]. auto 10 with keeps.
Qed.

Lemma keeps_advance (height : float) : keeps (advance height).
Proof.
  unfold advance. apply keeps_bind; [auto with keeps|]. intros this.
  destruct (_ =? _)%float; auto 10 with keeps.
Qed.

Lemma Step_closed w w' store :
  Step w w' ->
  tables (this w') = tables (this w)
  /\ (open <$> scopes w !! store = Some false -> open <$> scopes w' !! store = Some false).
Proof.
  intros [ w1 | w1 | height w1 | from to cb w1 Hcb | st name w1 | st name record w1
         | st name rs w1 ].
  - destruct (keeps_connect w1) as (-> & _ & ->). done.
  - done.
  - destruct (keeps_advance height w1) as (-> & _ & ->). done.
  - destruct (transact_frame from to cb w1 Hcb) as (_ & -> & _ & _ & _ & Hold).
    split; [done|]. intros Hclosed. rewrite Hold; [done|].
    apply lookup_lt_is_Some. destruct (scopes w1 !! store) eqn:Hsc; [eauto|discriminate].
  - by rewrite Store_get_world.
  - pose proof (Store_insert_buffersOnly st name record w1) as Hb.
    pose proof (buffersOnly_open _ _ Hb) as Hopen. destruct Hb as (-> & _).
    split; [done|]. by rewrite <- !list_lookup_fmap, Hopen.
  - pose proof (Store_insertMany_buffersOnly st name rs w1) as Hb.
    pose proof (buffersOnly_open _ _ Hb) as Hopen. destruct Hb as (-> & _).
    split; [done|]. by rewrite <- !list_lookup_fmap, Hopen.
Qed.

(** C6.  Take the store that a [transact] call hands to its callback.  Once
    the call has settled, with or without an error, and whatever the program
    does next, reading a table of that store throws "Transaction was already
    closed"; so do [insert] and [insertMany] through it.  The world is
    exactly what it was before the access: no buffer has changed and no call
    was issued. *)
Theorem store_closed_after_transact (from to : float) (cb : Store -> M S unit)
    (name : string) w w' :
  StoreOnly cb ->
  name ∈ keys (tables (this w)) ->
  rtc Step (transact from to cb w).2 w' ->
  let store := length (scopes w) in
  Store_get store name w'
  = (Throw (AssertionError (Some "Transaction was already closed")), w')
  /\ (forall record,
        Store_insert store name record w'
        = (Throw (AssertionError (Some "Transaction was already closed")), w'))
  /\ (forall records,
        Store_insertMany store name records w'
        = (Throw (AssertionError (Some "Transaction was already closed")), w')).
Proof.
  intros Hcb Hname Hlater store.
  destruct (transact_frame from to cb w Hcb) as (_ & Htables & _ & _ & Hclosed & _).
  fold store in Hclosed.
  assert (Hinv : tables (this w') = tables (this w)
                 /\ open <$> scopes w' !! store = Some false).
  { rewrite <- Htables. clear Htables Hname.
    induction Hlater as [w1|w1 w2 w3 Hstep _ IH]; [done|].
    destruct (Step_closed w1 w2 store Hstep) as [Ht Hc].
    rewrite <- Ht. apply IH. by apply Hc. }
  destruct Hinv as [Ht Hc]. rewrite <- Ht in Hname.
  split; [by apply closed_Store_get|].
  split; intros; [by apply closed_Store_insert|by apply closed_Store_insertMany].
Qed.

(** *** Row reservation *)

(** [getNextRowIndex(sheet)] issues one call, an append of one blank row to
    the sheet, and makes its result of the answer: the last row of the range
    the answer reports for the table.  The call is addressed to the
    spreadsheet of the literal, whatever spreadsheet the database was
    constructed with. *)
Lemma getNextRowIndex_call (sheet : string) w :
  let c := values_append "1g6aHhV7-EsB6SRmM9KIQq9y_Mm4ZVfMw_5aK79NvDXg"
             ("'" +:+ sheet +:+ "'") RAW [[VString ""]] in
  getNextRowIndex sheet w = (rowIndexOf (send c (remote w)).1, (call c w).2).
Proof. cbv zeta. unfold getNextRowIndex, appendBlankRow. by rewrite call_eq. Qed.

Lemma tableRangeIndex_examples :
  tableRangeIndex "transfers!A1:B4" = Some "4"
  /\ tableRangeIndex "'my sheet'!A1:AB120" = Some "120"
  /\ tableRangeIndex "a!b!C3:D07" = Some "07"
  /\ tableRangeIndex "transfers!A1" = None
  /\ tableRangeIndex "transfers!A1:B" = None
  /\ tableRangeIndex "transfers!a1:b4" = None
  /\ tableRangeIndex "A1:B4" = None.
Proof. repeat split. Qed.

(** *** The calls of [transact] *)

Lemma sendAll_length (calls : list Call) (s : S) :
  length (sendAll calls s).1 = length calls.
Proof. revert s. induction calls as [|c calls IH]; intros s; simpl; [done|]. by rewrite IH. Qed.

Lemma Promise_all_ext {A} (ps qs : list (M S A)) :
  Forall2 (fun p q => forall w, p w = q w) ps qs ->
  forall w, Promise_all ps w = Promise_all qs w.
Proof.
  induction 1 as [|p q ps qs Hpq _ IH]; intros w; simpl; [done|].
  rewrite Hpq. destruct (q w) as [r w1]. by rewrite IH.
Qed.

Lemma Promise_all_getNextRowIndex (names : list string) w :
  Promise_all (map getNextRowIndex names) w
  = let calls := map appendBlankRow names in
    let rs := sendAll calls (remote w) in
    (mapM rowIndexOf rs.1,
     {| this := this w; remote := rs.2; trace := trace w ++ zip calls rs.1;
        scopes := scopes w |}).
Proof.
  revert w. induction names as [|name names IH]; intros w; cbv zeta.
  - simpl. rewrite app_nil_r. by destruct w.
  - cbn [map Promise_all]. unfold getNextRowIndex at 1. rewrite call_eq, IH.
    cbv zeta. cbn [sendAll fst snd this remote trace scopes zip zip_with].
    rewrite mapM_cons, <- app_assoc. cbn [app].
    destruct (rowIndexOf _) as [index|e]; [|done].
    by destruct (mapM rowIndexOf _).
Qed.

Lemma prop_NoDup {A} (o : list (string * A)) (k : string) (v : A) :
  NoDup (keys o) -> (k, v) ∈ o -> prop o k = Some v.
Proof.
  induction o as [|[k' v'] o IH]; intros Hnodup Hin; [by apply elem_of_nil in Hin|].
  apply NoDup_cons in Hnodup as [Hk' Hnodup]. simpl.
  apply elem_of_cons in Hin as [[= -> ->]|Hin].
  - by rewrite String.eqb_refl.
  - destruct (String.eqb_spec k' k) as [->|_]; [|by apply IH].
    destruct Hk'. apply list_elem_of_fmap. by exists (k, v).
Qed.

Lemma tableOf_entries (this : Database) :
  NoDup (keys (tables this)) ->
  Forall (fun e => tableOf this e.1 = Ok e.2) (tables this).
Proof.
  intros Hnodup. apply Forall_forall. intros [a t] Hin. unfold tableOf. simpl.
  by rewrite (prop_NoDup _ _ _ Hnodup Hin).
Qed.

Lemma Forall2_and_l {A B} (P : A -> Prop) (Q : A -> B -> Prop) (l : list A) (k : list B) :
  Forall P l -> Forall2 Q l k -> Forall2 (fun x y => P x /\ Q x y) l k.
Proof.
  intros HP HQ. induction HQ as [|x y l k Hxy _ IH]; [constructor|].
  apply Forall_cons in HP as [Hx HP]. constructor; auto.
Qed.

Lemma reservations_eq (this : Database) w :
  NoDup (keys (tables this)) ->
  Promise_all (reservations this) w
  = Promise_all (map getNextRowIndex (map (fun e => Table.name e.2) (tables this))) w.
Proof.
  intros Hnodup. apply Promise_all_ext. unfold reservations, keys.
  pose proof (tableOf_entries this Hnodup) as Hall.
  clear Hnodup. induction Hall as [|e l He _ IH]; simpl; constructor; try done.
  intros w'. unfold mbind, M_bind, lift. by rewrite He.
Qed.

Lemma forOf_ext {A B} (f g : B -> A -> Result B) (l : list A) (acc : B) :
  (forall acc x, f acc x = g acc x) -> TableWriter.forOf f l acc = TableWriter.forOf g l acc.
Proof.
  intros Hfg. revert acc. induction l as [|x l IH]; intros acc; simpl; [done|].
  rewrite Hfg. destruct (g acc x); simpl; [apply IH|done].
Qed.

Lemma forOf_pushRequest (this : Database) (chunk : Chunk) (l : list (string * float)) :
  TableWriter.forOf (pushRequest this chunk) l [] = mapM (requestOf this chunk) l.
Proof.
  rewrite (forOf_ext _ (fun acc x => y ← requestOf this chunk x; mret (acc ++ [y]))).
  - rewrite forOf_push. by destruct (mapM _ _).
  - intros acc x. unfold pushRequest, requestOf.
    destruct (tableOf this x.1); simpl; [|done].
    destruct (chunk !! x.1); simpl; [|done].
    by destruct (TableWriter.flush _).
Qed.

Lemma requestOf_eq (this : Database) (chunk : Chunk) (e : string * Table.t)
    (writer : TableWriter) (index : float) :
  tableOf this e.1 = Ok e.2 -> chunk !! e.1 = Some writer ->
  requestOf this chunk (e.1, index)
  = (rows ← TableWriter.flush writer; mret (writeOf (e, index) rows)).
Proof. intros Ht Hw. unfold requestOf. simpl. by rewrite Ht, Hw. Qed.

Lemma requests_eq (this : Database) (chunk : Chunk)
    (entries : list (string * Table.t)) (writers : list TableWriter) :
  Forall2 (fun e writer => tableOf this e.1 = Ok e.2 /\ chunk !! e.1 = Some writer)
    entries writers ->
  forall indices, length indices = length entries ->
  mapM (requestOf this chunk) (zip (keys entries) indices)
  = (rowss ← mapM TableWriter.flush writers;
     mret (zip_with writeOf (zip entries indices) rowss)).
Proof.
  induction 1 as [|e writer entries writers [Ht Hw] _ IH]; intros indices Hlen.
  - destruct indices; [done|discriminate].
  - destruct indices as [|index indices]; [discriminate|].
    injection Hlen as Hlen.
    change (zip (keys (e :: entries)) (index :: indices))
      with ((e.1, index) :: zip (keys entries) indices).
    rewrite !mapM_cons, (requestOf_eq _ _ _ _ _ Ht Hw), (IH indices Hlen).
    destruct (TableWriter.flush writer); simpl; [|done].
    by destruct (mapM TableWriter.flush writers).
Qed.

Lemma createChunk_keep (this : Database) (l : list string) (acc : Chunk) (a : string) :
  a ∉ l ->
  fold_left
    (fun chunk name =>
       match prop (tables this) name with
       | Some t => <[name := Table.createWriter t]> chunk
       | None => chunk
       end) l acc !! a = acc !! a.
Proof.
  revert acc. induction l as [|x l IH]; intros acc Ha; simpl; [done|].
  apply not_elem_of_cons in Ha as [Hne Ha]. rewrite IH by done.
  destruct (prop (tables this) x); [|done]. by rewrite lookup_insert_ne.
Qed.

Lemma createChunk_set (this : Database) (l : list string) (acc : Chunk) (a : string)
    (t : Table.t) :
  a ∈ l -> prop (tables this) a = Some t ->
  fold_left
    (fun chunk name =>
       match prop (tables this) name with
       | Some t => <[name := Table.createWriter t]> chunk
       | None => chunk
       end) l acc !! a = Some (Table.createWriter t).
Proof.
  intros Ha Ht. revert acc. induction l as [|x l IH]; intros acc; [by apply elem_of_nil in Ha|].
  simpl. destruct (decide (a ∈ l)) as [Hin|Hnotin]; [by apply IH|].
  apply elem_of_cons in Ha as [<-|Ha]; [|done].
  rewrite createChunk_keep by done. rewrite Ht. by rewrite lookup_insert_eq.
Qed.

Lemma createChunk_lookup (this : Database) (a : string) (t : Table.t) :
  NoDup (keys (tables this)) -> (a, t) ∈ tables this ->
  createChunk this !! a = Some (Table.createWriter t).
Proof.
  intros Hnodup Hin. unfold createChunk. apply createChunk_set.
  - apply list_elem_of_fmap. by exists (a, t).
  - by apply prop_NoDup.
Qed.




(** *** What assigns [lastCommitted] *)

(** C10.  [advance] never assigns [lastCommitted] (nor any other field).
    So when [height] differs from the checkpoint in memory, it still differs
    after [advance(height)], and a second [advance(height)] issues the same
    update once more.  Of the other operations, a use of a store and a
    [transact] that throws leave [lastCommitted] as it was; [close] and a
    [transact] that returns assign it. *)
Theorem advance_keeps_lastCommitted (height : float) w :
  this (advance height w).2 = this w
  /\ ((lastCommitted (this w) =? height)%float = false ->
      let c := values_update (spreadsheetId (this w)) "squid_status!R1C1"
                 [[VNumber height]] USER_ENTERED in
      exists r1 r2,
        trace (advance height (advance height w).2).2 = trace w ++ [(c, r1); (c, r2)])
  /\ (forall store alias record, this (Store_insert store alias record w).2 = this w)
  /\ (forall store alias records, this (Store_insertMany store alias records w).2 = this w)
  /\ (forall from to cb,
        StoreOnly cb ->
        lastCommitted (this (transact from to cb w).2)
        = if isOk (transact from to cb w).1 then to else lastCommitted (this w))
  /\ lastCommitted (this (close w).2) = (-1)%float.
Proof.
  assert (Hadvance : forall w, this (advance height w).2 = this w).
  { intros w0. rewrite advance_eq. destruct (_ =? _)%float; [done|]. by rewrite call_eq. }
  split; [done|]. split; [|split; [|split; [|split]]].
  - intros Hne. cbv zeta.
    rewrite (advance_eq height (advance height w).2), Hadvance, Hne.
    rewrite call_eq. cbn [snd trace].
    rewrite advance_eq, Hne, call_eq. cbn [snd trace remote].
    eexists _, _. by rewrite <- app_assoc.
  - intros store alias record. by destruct (Store_insert_buffersOnly store alias record w).
  - intros store alias rs. by destruct (Store_insertMany_buffersOnly store alias rs w).
  - intros from to cb Hcb.
    by destruct (transact_frame from to cb w Hcb) as (_ & _ & _ & -> & _).
  - done.
Qed.

(** *** connect *)

Lemma creations_app (l k : list (Call * Result Data)) :
  creations (l ++ k) = (creations l + creations k)%nat.
Proof. unfold creations. by rewrite filter_app, length_app. Qed.

Lemma creations_cons (c : Call) (r : Result Data) (l : list (Call * Result Data)) :
  creations ((c, r) :: l) = ((if createsStatus c then 1 else 0) + creations l)%nat.
Proof.
  unfold creations. rewrite filter_cons. simpl.
  destruct (createsStatus c); by case_decide.
Qed.

Lemma newTableRequests_Ok (t : Table.t) :
  exists id,
    newTableRequests t
    = Ok [ addSheet (Some id) (Table.name t) 1 (length (Table.columns t));
           updateCells id 0 (length (Table.columns t)) 0 1
             [ map (fun c =>
                      {| userEnteredValue_stringValue := name c;
                         userEnteredFormat_numberFormat_type := formatType (type (data c)) |})
                 (Table.columns t) ]
             "userEnteredValue(stringValue),userEnteredFormat(numberFormat)" ].
Proof.
  unfold newTableRequests.
  pose proof (md5_digest_length (Table.name t)) as Hlen.
  destruct (md5_digest (Table.name t)) as [|b0 [|b1 bs]]; try discriminate.
  eexists. reflexivity.
Qed.

(** The requests of [migrate] for tables that are new to a spreadsheet which
    lists the checkpoint sheet create no sheet of that title. *)
Lemma migrate_requests (spreadsheet : Data) (ts : list Table.t) :
  is_Some (findSheet spreadsheet "squid_status") ->
  Forall (fun t => isNewTable spreadsheet t = true) ts ->
  exists requests,
    mapM newTableRequests ts = Ok requests
    /\ forall id, createsStatus (spreadsheets_batchUpdate id (concat requests)) = false.
Proof.
  intros Hlisted Hnew. induction Hnew as [|t ts Ht _ IH].
  - exists []. done.
  - destruct IH as (requests & Hrequests & Hnone).
    destruct (newTableRequests_Ok t) as (id & Hid).
    eexists. rewrite mapM_cons, Hid, Hrequests. split; [reflexivity|].
    intros id'. specialize (Hnone id'). simpl in *. rewrite Hnone, orb_false_r.
    apply String.eqb_neq. intros Hname.
    unfold isNewTable in Ht. unfold findSheet in Hlisted.
    destruct (data_sheets spreadsheet) as [sheets|]; [|done]. simpl in Hlisted.
    destruct Hlisted as [s Hs]. apply find_some in Hs as [Hin Htitle].
    apply negb_true_iff in Ht.
    assert (existsb (fun s => bool_decide (title s = Some (Table.name t))) sheets = true);
      [|congruence].
    apply existsb_exists. exists s. by rewrite Hname.
Qed.


Lemma sheetId_range (name : string) :
  exists sheetId,
    readUint16LE (md5_digest name) = Ok sheetId /\ (0 <= sheetId < 65536)%Z.
Proof.
  pose proof (md5_digest_length name) as Hlen.
  destruct (md5_digest name) as [|b0 [|b1 bs]]; try discriminate.
  eexists. split; [reflexivity|].
  pose proof (Byte.to_N_bounded b0). pose proof (Byte.to_N_bounded b1).
  rewrite Z.shiftl_mul_pow2 by lia. lia.
Qed.

Lemma mapM_newTableRequests (ts : list Table.t) :
  exists ids,
    mapM newTableRequests ts = Ok (zip_with tableRequests ts ids)
    /\ Forall2 (fun t sheetId => readUint16LE (md5_digest (Table.name t)) = Ok sheetId) ts ids.
Proof.
  induction ts as [|t ts (ids & Hrequests & Hids)].
  - by exists [].
  - destruct (sheetId_range (Table.name t)) as (id & Hid & _).
    exists (id :: ids). split; [|by constructor].
    rewrite mapM_cons, Hrequests. unfold newTableRequests. by rewrite Hid.
Qed.

Lemma migrate_eq w :
  let get := spreadsheets_get (spreadsheetId (this w)) in
  let w1 := (call get w).2 in
  migrate w
  = match (send get (remote w)).1 with
    | Throw e => (Throw e, w1)
    | Ok spreadsheet =>
        match filter (fun t => isNewTable spreadsheet t = true) (vals (tables (this w))) with
        | [] => (Ok tt, w1)
        | newTables =>
            match mapM newTableRequests newTables with
            | Throw e => (Throw e, w1)
            | Ok requests =>
                let batch := spreadsheets_batchUpdate (spreadsheetId (this w)) (concat requests) in
                ((fun _ => tt) <$> (send batch (remote w1)).1, (call batch w1).2)
            end
        end
    end.
Proof.
  cbv zeta. unfold migrate, mbind, M_bind, getThis, lift, mret, M_ret.
  rewrite call_eq. cbn [fst snd].
  destruct (send _ (remote w)).1 as [spreadsheet|e]; [|done].
  destruct (filter _ _) as [|t ts]; [done|]. cbn [length Nat.ltb Nat.leb].
  destruct (mapM _ _) as [requests|e]; [|done].
  rewrite call_eq. cbn [fst snd this].
  by destruct (send _ _).1.
Qed.

Lemma isNewTable_spec (spreadsheet : Data) (t : Table.t) :
  isNewTable spreadsheet t = true
  <-> exists sheets,
        data_sheets spreadsheet = Some sheets
        /\ Forall (fun s => title s <> Some (Table.name t)) sheets.
Proof.
  unfold isNewTable. destruct (data_sheets spreadsheet) as [sheets|].
  - rewrite negb_true_iff, <- not_true_iff_false, existsb_exists. split.
    + intros Hnone. exists sheets. split; [done|]. apply Forall_forall. intros s Hs Htitle.
      apply Hnone. exists s. split; [by apply list_elem_of_In|by apply bool_decide_eq_true].
    + intros (? & [= <-] & Hall) (s & Hs & Htitle). rewrite Forall_forall in Hall.
      apply bool_decide_eq_true in Htitle. apply list_elem_of_In in Hs. by apply (Hall s).
  - split; [done|]. by intros (? & ? & _).
Qed.

Lemma migrate_calls w :
  let r := migrate w in
  this r.2 = this w
  /\ exists new,
       trace r.2 = trace w ++ new
       /\ Forall (fun cr => spreadsheetOf cr.1 = spreadsheetId (this w)
                            /\ schemaCall cr.1 = true) new
       /\ (1 <= length new <= 2)%nat
       /\ match r.1 with
          | Throw e => exists c, last new = Some (c, Throw e)
          | Ok _ => Forall (fun cr => isOk cr.2 = true) new
          end.
Proof.
  cbv zeta. rewrite migrate_eq. cbv zeta. rewrite call_eq. cbn [fst snd].
  set (get := spreadsheets_get _).
  destruct (send get (remote w)).1 as [spreadsheet|e] eqn:Hget.
  2:{ split; [done|]. eexists. split; [reflexivity|].
      split; [by repeat constructor|]. split; [simpl; lia|]. simpl. eauto. }
  destruct (filter _ _) as [|t ts].
  { split; [done|]. eexists. split; [reflexivity|].
    split; [by repeat constructor|]. split; [simpl; lia|]. by repeat constructor. }
  destruct (mapM_newTableRequests (t :: ts)) as (ids & -> & _).
  cbv zeta. rewrite call_eq. cbn [fst snd this remote trace].
  split; [done|]. eexists. rewrite <- app_assoc. split; [reflexivity|].
  split; [by repeat constructor|]. split; [simpl; lia|].
  destruct (send (spreadsheets_batchUpdate _ _) _).1; simpl; [by repeat constructor|eauto].
Qed.

Lemma connect_eq w :
  let id := spreadsheetId (this w) in
  let get := spreadsheets_get id in
  let w1 := (call get w).2 in
  let resume (x : float) (w2 : World S) :=
    match migrate (setLastCommitted x w2).2 with
    | (Throw e, w3) => (Throw e, w3)
    | (Ok _, w3) => (Ok (lastCommitted (this w3)), w3)
    end in
  connect w
  = match (send get (remote w)).1 with
    | Throw e => (Throw e, w1)
    | Ok spreadsheet =>
        match findSheet spreadsheet "squid_status" with
        | None =>
            let create := spreadsheets_batchUpdate id [addSheet None "squid_status" 1 1] in
            match (send create (remote w1)).1 with
            | Throw e => (Throw e, (call create w1).2)
            | Ok _ => resume (-1)%float (call create w1).2
            end
        | Some _ =>
            let read := values_get id "squid_status!R1C1" in
            match (send read (remote w1)).1 with
            | Throw e => (Throw e, (call read w1).2)
            | Ok data =>
                resume (Number (coalesce (firstCell data) (VNumber (-1)%float)))
                  (call read w1).2
            end
        end
    end.
Proof.
  cbv zeta. unfold connect, mbind, M_bind, getThis, mret, M_ret.
  rewrite call_eq. cbn [fst snd].
  destruct (send _ (remote w)).1 as [spreadsheet|e]; [|done].
  destruct (findSheet _ _); rewrite call_eq; cbn [fst snd this];
    destruct (send _ _).1; try done.
Qed.

Lemma connect_trace w :
  let r := connect w in
  exists new,
    trace r.2 = trace w ++ new
    /\ head new.*1 = Some (spreadsheets_get (spreadsheetId (this w)))
    /\ Forall (fun cr => spreadsheetOf cr.1 = spreadsheetId (this w)
                         /\ schemaCall cr.1 = true) new
    /\ (1 <= length new <= 4)%nat
    /\ match r.1 with
       | Throw e => exists c, last new = Some (c, Throw e)
       | Ok _ => Forall (fun cr => isOk cr.2 = true) new /\ (3 <= length new)%nat
       end.
Proof.
  cbv zeta. rewrite connect_eq. cbv zeta. rewrite call_eq. cbn [fst snd].
  set (id := spreadsheetId (this w)).
  set (get := spreadsheets_get id).
  destruct (send get (remote w)).1 as [spreadsheet|e] eqn:Hget.
  2:{ eexists. split; [reflexivity|]. split; [done|].
      split; [by repeat constructor|]. split; [simpl; lia|]. simpl. eauto. }
  assert (Hresume : forall (c : Call) (d : Data) (x : float),
             spreadsheetOf c = id -> schemaCall c = true ->
             let w2 := {| this := this w; remote := (send c (send get (remote w)).2).2;
                          trace := (trace w ++ [(get, Ok spreadsheet)]) ++ [(c, Ok d)];
                          scopes := scopes w |} in
             let r := match migrate (setLastCommitted x w2).2 with
                      | (Throw e, w3) => (Throw e, w3)
                      | (Ok _, w3) => (Ok (lastCommitted (this w3)), w3)
                      end in
             exists new,
               trace r.2 = trace w ++ new
               /\ head new.*1 = Some get
               /\ Forall (fun cr => spreadsheetOf cr.1 = id /\ schemaCall cr.1 = true) new
               /\ (1 <= length new <= 4)%nat
               /\ match r.1 with
                  | Throw e => exists c, last new = Some (c, Throw e)
                  | Ok _ => Forall (fun cr => isOk cr.2 = true) new /\ (3 <= length new)%nat
                  end).
  { intros c d x Hc Hschema. cbv zeta.
    match goal with |- context [migrate ?w2] =>
      destruct (migrate_calls w2) as (_ & new & Htrace & Hnew & Hlen & Hlast);
      destruct (migrate w2) as [[[]|e] w3]
    end; unfold setLastCommitted in *; cbn [fst snd this trace spreadsheetId] in *;
      fold id in Hnew.
    - exists ((get, Ok spreadsheet) :: (c, Ok d) :: new).
      rewrite Htrace, <- !app_assoc. split; [done|]. split; [done|].
      split; [by repeat constructor|]. split; [simpl; lia|].
      split; [by repeat constructor|simpl; lia].
    - exists ((get, Ok spreadsheet) :: (c, Ok d) :: new).
      rewrite Htrace, <- !app_assoc. split; [done|]. split; [done|].
      split; [by repeat constructor|]. split; [simpl; lia|].
      destruct Hlast as [c' Hlast]. exists c'.
      destruct new as [|cr new]; [simpl in Hlen; lia|]. exact Hlast. }
  destruct (findSheet spreadsheet "squid_status"); cbv zeta; rewrite call_eq;
    cbn [fst snd this remote trace scopes];
    match goal with |- context [send ?c (send get (remote w)).2] =>
      destruct (send c (send get (remote w)).2).1 as [d|e] eqn:Hc;
        [exact (Hresume c d _ eq_refl eq_refl)|]
    end.
  all: eexists; rewrite <- app_assoc; (split; [reflexivity|]); (split; [done|]);
    (split; [by repeat constructor|]); (split; [simpl; lia|]); simpl; eauto.
Qed.

Lemma findSheet_None (spreadsheet : Data) (t : string) :
  (forall sheets,
     data_sheets spreadsheet = Some sheets -> Forall (fun s => title s <> Some t) sheets) ->
  findSheet spreadsheet t = None.
Proof.
  intros Hnone. unfold findSheet.
  destruct (data_sheets spreadsheet) as [sheets|]; [|done].
  simpl. specialize (Hnone sheets eq_refl).
  induction Hnone as [|s sheets Hs _ IH]; [done|].
  simpl. by rewrite bool_decide_eq_false_2.
Qed.

Lemma findSheet_Some (spreadsheet : Data) (t : string) (sheets : list Sheet) (sheet : Sheet) :
  data_sheets spreadsheet = Some sheets -> sheet ∈ sheets -> title sheet = Some t ->
  is_Some (findSheet spreadsheet t).
Proof.
  intros Hs Hin Ht. unfold findSheet. rewrite Hs. simpl. clear Hs.
  induction Hin as [sheet sheets|sheet s sheets Hin IH]; simpl.
  - rewrite bool_decide_eq_true_2 by done. eauto.
  - destruct (bool_decide _); eauto.
Qed.

(** [migrate], when its calls are answered and the spreadsheet it reads
    lists the checkpoint sheet: it returns, and creates no such sheet. *)
Lemma migrate_answered w :
  let calls := drop (length (trace w)) (trace (migrate w).2) in
  answered calls -> listsStatus calls ->
  (migrate w).1 = Ok tt /\ this (migrate w).2 = this w /\ creations calls = 0%nat.
Proof.
  cbv zeta. rewrite migrate_eq. cbv zeta. rewrite call_eq. cbn [fst snd].
  set (get := spreadsheets_get _).
  destruct (send get (remote w)).1 as [spreadsheet|e] eqn:Hget.
  2:{ cbn [fst snd trace]. rewrite drop_app_length. intros Hans.
      by apply Forall_cons in Hans as [? _]. }
  destruct (filter _ _) as [|t ts] eqn:Hfilter.
  { cbn [fst snd trace this]. rewrite drop_app_length. intros _ _.
    by rewrite creations_cons. }
  destruct (mapM_newTableRequests (t :: ts)) as (ids & Hrequests & _).
  rewrite Hrequests. cbv zeta. rewrite call_eq. cbn [fst snd this remote trace].
  rewrite <- app_assoc, drop_app_length.
  intros Hans Hlist.
  apply Forall_cons in Hans as [_ Hans]. apply Forall_cons in Hans as [Hbatch _].
  apply Forall_cons in Hlist as [Hlisted _].
  destruct Hlisted as (sheets & sheet & Hs & Hin & Ht).
  destruct (migrate_requests spreadsheet (t :: ts)) as (requests & Hr & Hnone).
  { by eapply findSheet_Some. }
  { rewrite <- Hfilter. apply Forall_forall. intros t' Ht'.
    by apply list_elem_of_filter in Ht' as [? _]. }
  assert (requests = zip_with tableRequests (t :: ts) ids) as -> by congruence.
  cbn [snd] in Hbatch. cbn [app].
  destruct (send (spreadsheets_batchUpdate _ _) _).1; [|discriminate Hbatch].
  split; [done|]. split; [done|].
  by rewrite !creations_cons, Hnone.
Qed.

(** What follows the first two calls of [connect]: the checkpoint is set in
    memory and [migrate] runs. *)
Lemma resume_answered (x : float) w :
  let r := match migrate (setLastCommitted x w).2 with
           | (Throw e, w') => (Throw e, w')
           | (Ok _, w') => (Ok (lastCommitted (this w')), w')
           end in
  let calls := drop (length (trace w)) (trace r.2) in
  answered calls -> listsStatus calls ->
  r.1 = Ok x /\ trace r.2 = trace w ++ calls /\ creations calls = 0%nat.
Proof.
  cbv zeta. intros Hans Hlist.
  pose proof (migrate_answered (setLastCommitted x w).2) as Hm. cbv zeta in Hm.
  destruct (migrate_calls (setLastCommitted x w).2) as (_ & new & Htrace & _).
  change (trace (setLastCommitted x w).2) with (trace w) in *.
  destruct (migrate (setLastCommitted x w).2) as [[[]|e] w'];
    cbn [fst snd] in *; rewrite Htrace, drop_app_length in *;
    destruct (Hm Hans Hlist) as (Hr & Hthis & Hnone); [|discriminate Hr].
  by rewrite Hthis.
Qed.

(** [connect], when its calls are answered and every spreadsheet it reads
    after the first lists the checkpoint sheet. *)
Lemma connect_answered w :
  let get := spreadsheets_get (spreadsheetId (this w)) in
  let create :=
    spreadsheets_batchUpdate (spreadsheetId (this w)) [addSheet None "squid_status" 1 1] in
  let read := values_get (spreadsheetId (this w)) "squid_status!R1C1" in
  let calls := drop (length (trace w)) (trace (connect w).2) in
  answered calls -> listsStatus (tail calls) ->
  trace (connect w).2 = trace w ++ calls
  /\ exists spreadsheet,
       (send get (remote w)).1 = Ok spreadsheet
       /\ head calls = Some (get, Ok spreadsheet)
       /\ match findSheet spreadsheet "squid_status" with
          | None =>
              (connect w).1 = Ok (-1)%float
              /\ (exists response, (create, response) ∈ calls)
              /\ creations calls = 1%nat
          | Some _ =>
              exists data,
                (read, Ok data) ∈ calls
                /\ (connect w).1
                   = Ok (Number (coalesce (firstCell data) (VNumber (-1)%float)))
                /\ creations calls = 0%nat
          end.
Proof.
  cbv zeta. rewrite connect_eq. cbv zeta. rewrite call_eq. cbn [fst snd remote].
  set (get := spreadsheets_get _).
  destruct (send get (remote w)).1 as [spreadsheet|e] eqn:Hget.
  2:{ cbn [fst snd trace]. rewrite drop_app_length. intros Hans.
      by apply Forall_cons in Hans as [? _]. }
  assert (Hresume : forall (c : Call) (response : Result Data) (x : float),
             let w2 := {| this := this w; remote := (send c (send get (remote w)).2).2;
                          trace := (trace w ++ [(get, Ok spreadsheet)]) ++ [(c, response)];
                          scopes := scopes w |} in
             let r := match migrate (setLastCommitted x w2).2 with
                      | (Throw e, w') => (Throw e, w')
                      | (Ok _, w') => (Ok (lastCommitted (this w')), w')
                      end in
             let calls := drop (length (trace w)) (trace r.2) in
             answered calls -> listsStatus (tail calls) ->
             trace r.2 = trace w ++ calls
             /\ head calls = Some (get, Ok spreadsheet)
             /\ r.1 = Ok x
             /\ (c, response) ∈ calls
             /\ creations calls = (if createsStatus c then 1 else 0)%nat).
  { intros c response x w2 r calls.
    pose proof (resume_answered x w2) as Hr. cbv zeta in Hr. fold r in Hr.
    destruct (migrate_calls (setLastCommitted x w2).2) as (_ & new & Htrace & _).
    assert (Hr2 : trace r.2 = trace w2 ++ new).
    { unfold r. change (trace (setLastCommitted x w2).2) with (trace w2) in Htrace.
      by destruct (migrate (setLastCommitted x w2).2) as [[[]|e] w']. }
    assert (Hcalls : trace r.2 = trace w ++ (get, Ok spreadsheet) :: (c, response) :: new).
    { rewrite Hr2. unfold w2. cbn [trace]. by rewrite <- !app_assoc. }
    assert (Hnew : drop (length (trace w2)) (trace r.2) = new)
      by (by rewrite Hr2, drop_app_length).
    unfold calls. rewrite Hcalls, drop_app_length. cbn [tail].
    intros Hans Hlist.
    apply Forall_cons in Hans as [_ Hans]. apply Forall_cons in Hans as [_ Hans].
    apply Forall_cons in Hlist as [_ Hlist].
    rewrite Hnew in Hr. destruct (Hr Hans Hlist) as (Hres & _ & Hnone).
    split; [done|]. split; [done|]. split; [done|].
    split; [apply list_elem_of_further, list_elem_of_here|].
    rewrite !creations_cons, Hnone.
    assert (createsStatus get = false) as -> by done.
    destruct (createsStatus c); lia. }
  destruct (findSheet spreadsheet "squid_status") eqn:Hfind; cbv zeta; rewrite call_eq;
    cbn [fst snd this remote trace scopes].
  - set (read := values_get _ _).
    destruct (send read (send get (remote w)).2).1 as [d|e] eqn:Hc.
    + intros Hans Hlist.
      destruct (Hresume read (Ok d) _ Hans Hlist) as (Htrace & Hhead & Hr & Hin & Hnone).
      split; [done|]. exists spreadsheet. rewrite Hfind. split; [done|]. split; [done|].
      exists d. done.
    + cbn [fst snd trace]. rewrite <- app_assoc, drop_app_length. intros Hans.
      apply Forall_cons in Hans as [_ Hans]. by apply Forall_cons in Hans as [? _].
  - set (create := spreadsheets_batchUpdate _ _).
    destruct (send create (send get (remote w)).2).1 as [d|e] eqn:Hc.
    + intros Hans Hlist.
      destruct (Hresume create (Ok d) _ Hans Hlist) as (Htrace & Hhead & Hr & Hin & Hnone).
      split; [done|]. exists spreadsheet. rewrite Hfind. split; [done|]. split; [done|].
      split; [done|]. split; [eauto|done].
    + cbn [fst snd trace]. rewrite <- app_assoc, drop_app_length. intros Hans.
      apply Forall_cons in Hans as [_ Hans]. by apply Forall_cons in Hans as [? _].
Qed.

(** C9.  Take a spreadsheet that lists no sheet titled [squid_status], and
    a run of [connect] followed by a second [connect] in which the service
    rejects none of their calls, lists the sheet in every spreadsheet it
    reads after the first, and reads the cell [squid_status!R1C1] as empty.
    The first [connect] asks for a sheet [squid_status] of one row and one
    column and returns [-1].  The second returns [-1] again, having read the
    cell; of all the calls of the two, only that one of the first creates a
    sheet of this title. *)
Theorem connect_creates_checkpoint_once w :
  let first := connect w in
  let second := connect first.2 in
  let get := spreadsheets_get (spreadsheetId (this w)) in
  let create :=
    spreadsheets_batchUpdate (spreadsheetId (this w)) [addSheet None "squid_status" 1 1] in
  let read := values_get (spreadsheetId (this w)) "squid_status!R1C1" in
  let calls1 := drop (length (trace w)) (trace first.2) in
  let calls2 := drop (length (trace first.2)) (trace second.2) in
  (forall spreadsheet sheets,
     (send get (remote w)).1 = Ok spreadsheet ->
     data_sheets spreadsheet = Some sheets ->
     Forall (fun sheet => title sheet <> Some "squid_status") sheets) ->
  answered (calls1 ++ calls2) ->
  listsStatus (tail calls1 ++ calls2) ->
  readsEmpty calls2 ->
  first.1 = Ok (-1)%float
  /\ (exists response, (create, response) ∈ calls1)
  /\ creations calls1 = 1%nat
  /\ second.1 = Ok (-1)%float
  /\ (exists response, (read, response) ∈ calls2)
  /\ creations (drop (length (trace w)) (trace second.2)) = 1%nat.
Proof.
  intros first second get create read calls1 calls2 Hmissing Hans Hlist Hempty.
  apply Forall_app in Hans as [Hans1 Hans2]. apply Forall_app in Hlist as [Hlist1 Hlist2].
  destruct (connect_answered w Hans1 Hlist1) as (Htrace1 & sp1 & Hget1 & _ & Hfirst).
  fold get create first calls1 in Htrace1, Hget1, Hfirst.
  rewrite (findSheet_None sp1 "squid_status") in Hfirst by eauto.
  destruct Hfirst as (Hr1 & Hcreate & Hone).
  assert (Hlist2' : listsStatus (tail calls2)).
  { destruct calls2 as [|cr calls2']; [done|]. by apply Forall_cons in Hlist2 as [_ ?]. }
  destruct (connect_answered first.2 Hans2 Hlist2') as (Htrace2 & sp2 & _ & Hhead2 & Hsecond).
  destruct (keeps_connect w) as (_ & Hid & _). fold first in Hid. rewrite Hid in Hsecond.
  fold read second calls2 in Htrace2, Hhead2, Hsecond.
  destruct (findSheet sp2 "squid_status") as [sheet|] eqn:Hfind.
  2:{ destruct calls2 as [|[c r] calls2']; [done|]. injection Hhead2 as -> ->.
      apply Forall_cons in Hlist2 as [(sheets & sheet & Hs & Hin & Ht) _].
      destruct (findSheet_Some sp2 "squid_status" sheets sheet Hs Hin Ht) as [? Hsome].
      congruence. }
  destruct Hsecond as (data & Hin & Hr2 & Hnone).
  split; [done|]. split; [done|]. split; [done|].
  split.
  { rewrite Hr2. unfold readsEmpty in Hempty.
    rewrite Forall_forall in Hempty. specialize (Hempty _ Hin). cbn in Hempty.
    unfold coalesce, firstCell.
    destruct (data_values data) as [[|[|v row] rows]|]; try done.
    by rewrite Hempty. }
  split; [eauto|].
  rewrite Htrace2, Htrace1, <- app_assoc, drop_app_length, creations_app. lia.
Qed.

End Database.

(** ** The example *)

Section Example.
Import reference.

Lemma callback_StoreOnly : StoreOnly callback.
Proof. apply script_StoreOnly. Qed.

Lemma tables_NoDup : NoDup (keys (tables (this world1))).
Proof. vm_compute. repeat constructor. set_solver. Qed.

(** C5 on the example: the transaction returns, the checkpoint in memory is
    [1], and the store is closed. *)
Lemma transact_outcome_witness :
  StoreOnly callback
  /\ (transact 0 1 callback world1).1 = Ok tt
  /\ lastCommitted (this (transact 0 1 callback world1).2) = 1%float
  /\ open <$> scopes (transact 0 1 callback world1).2 !! 0%nat = Some false.
Proof.
  split; [exact callback_StoreOnly|].
  assert (Hr : (transact 0 1 callback world1).1 = Ok tt) by (vm_compute; reflexivity).
  pose proof (transact_outcome 0 1 callback world1 callback_StoreOnly) as Hthm.
  cbv zeta in Hthm. destruct Hthm as (_ & Hlast & Hopen).
  rewrite Hr in Hlast. repeat split; assumption.
Defined.

(** C9 on the example: the spreadsheet [sheet-A] has no sheet at first.
    The first [connect] creates the checkpoint sheet and then the sheet of
    the table; the second reads the spreadsheet, the cell, and the
    spreadsheet again.  Both return [-1]. *)
Lemma connect_creates_checkpoint_once_witness :
  (send (spreadsheets_get "sheet-A") (remote world0)).1
  = Ok {| data_sheets := Some []; data_values := None; data_tableRange := None |}
  /\ answered (trace (connect (connect world0).2).2)
  /\ listsStatus (tail (trace (connect (connect world0).2).2))
  /\ readsEmpty (trace (connect (connect world0).2).2)
  /\ (connect world0).1 = Ok (-1)%float
  /\ (connect (connect world0).2).1 = Ok (-1)%float
  /\ (exists header,
        (trace (connect (connect world0).2).2).*1
        = [spreadsheets_get "sheet-A";
           spreadsheets_batchUpdate "sheet-A" [addSheet None "squid_status" 1 1];
           spreadsheets_get "sheet-A";
           spreadsheets_batchUpdate "sheet-A" [addSheet (Some 59604%Z) "transfers" 1 2; header];
           spreadsheets_get "sheet-A";
           values_get "sheet-A" "squid_status!R1C1";
           spreadsheets_get "sheet-A"])
  /\ creations (trace (connect (connect world0).2).2) = 1%nat.
Proof.
  assert (Hget : (send (spreadsheets_get "sheet-A") (remote world0)).1
                 = Ok {| data_sheets := Some []; data_values := None;
                         data_tableRange := None |}) by (vm_compute; reflexivity).
  assert (Hlists : forall others : list Sheet,
            exists sheets sheet,
              Some ({| title := Some "squid_status" |} :: others) = Some sheets
              /\ sheet ∈ sheets /\ title sheet = Some "squid_status").
  { intros others. eexists _, _. split; [reflexivity|]. split; [apply list_elem_of_here|done]. }
  assert (Hmissing : forall spreadsheet sheets,
            (send (spreadsheets_get (spreadsheetId (this world0))) (remote world0)).1
            = Ok spreadsheet ->
            data_sheets spreadsheet = Some sheets ->
            Forall (fun sheet => title sheet <> Some "squid_status") sheets).
  { intros spreadsheet sheets Hsend Hsheets.
    change (spreadsheetId (this world0)) with "sheet-A" in Hsend.
    rewrite Hget in Hsend. injection Hsend as <-. injection Hsheets as <-. constructor. }
  assert (Hans : answered
                   (drop (length (trace world0)) (trace (connect world0).2)
                    ++ drop (length (trace (connect world0).2))
                         (trace (connect (connect world0).2).2))).
  { vm_compute. repeat constructor. }
  assert (Hlist : listsStatus
                    (tail (drop (length (trace world0)) (trace (connect world0).2))
                     ++ drop (length (trace (connect world0).2))
                          (trace (connect (connect world0).2).2))).
  { vm_compute. repeat (apply Forall_cons; split); try exact I; try apply Hlists.
    constructor. }
  assert (Hempty : readsEmpty
                     (drop (length (trace (connect world0).2))
                        (trace (connect (connect world0).2).2))).
  { vm_compute. repeat (apply Forall_cons; split); try exact I. constructor. }
  pose proof (connect_creates_checkpoint_once world0 Hmissing Hans Hlist Hempty) as Hthm.
  cbv zeta in Hthm. destruct Hthm as (Hfirst & _ & _ & Hsecond & _ & Hone).
  change (length (trace world0)) with 0%nat in Hone. rewrite drop_0 in Hone.
  split; [exact Hget|].
  split; [vm_compute; repeat constructor|].
  split; [vm_compute; repeat (apply Forall_cons; split); try exact I; try apply Hlists;
          constructor|].
  split; [vm_compute; repeat (apply Forall_cons; split); try exact I; constructor|].
  split; [exact Hfirst|]. split; [exact Hsecond|].
  split; [eexists; vm_compute; reflexivity|exact Hone].
Defined.

(** C6 on the example: after the transaction, and an [advance] after it,
    the store of the transaction rejects an [insert]. *)
Lemma store_closed_after_transact_witness :
  StoreOnly callback
  /\ "transfers" ∈ keys (tables (this world1))
  /\ (let w' := (advance 5 (transact 0 1 callback world1).2).2 in
      Store_insert 0 "transfers" two w'
      = (Throw (AssertionError (Some "Transaction was already closed")), w')).
Proof.
  split; [exact callback_StoreOnly|].
  assert (Hname : "transfers" ∈ keys (tables (this world1))).
  { vm_compute. constructor. }
  split; [exact Hname|].
  exact (proj1 (proj2
    (store_closed_after_transact 0 1 callback "transfers" world1
       (advance 5 (transact 0 1 callback world1).2).2
       callback_StoreOnly Hname
       (rtc_once _ _ (step_advance 5 (transact 0 1 callback world1).2)))) two).
Defined.

(** C10 on the example: the checkpoint in memory is [-1]; two calls of
    [advance(7)] issue two updates and leave it at [-1], and so does a
    transaction whose callback throws. *)
Lemma advance_keeps_lastCommitted_witness :
  StoreOnly (S:=Book) (script [throw_ (PlainError "stop")])
  /\ (lastCommitted (this world1) =? 7)%float = false
  /\ lastCommitted (this (advance 7 (advance 7 world1).2).2) = (-1)%float
  /\ (exists r1 r2,
        trace (advance 7 (advance 7 world1).2).2
        = trace world1
          ++ [(values_update "sheet-A" "squid_status!R1C1" [[VNumber 7]] USER_ENTERED, r1);
              (values_update "sheet-A" "squid_status!R1C1" [[VNumber 7]] USER_ENTERED, r2)])
  /\ lastCommitted
       (this (transact 0 1 (script [throw_ (PlainError "stop")]) world1).2)
     = (-1)%float.
Proof.
  split; [apply script_StoreOnly|]. split; [reflexivity|].
  destruct (advance_keeps_lastCommitted 7 world1) as (Hthis & Htwice & _ & _ & Hfail & _).
  split; [|split].
  - rewrite (proj1 (advance_keeps_lastCommitted 7 (advance 7 world1).2)), Hthis.
    reflexivity.
  - exact (Htwice eq_refl).
  - rewrite (Hfail 0%float 1%float _ (script_StoreOnly _)). reflexivity.
Defined.



(** C1 (a defect of the code).  The database of the example was constructed
    with the spreadsheet [sheet-A]; the batched update of its transaction goes
    there, but the append that reserves the row goes to the spreadsheet of
    the literal in [getNextRowIndex]. *)
Theorem reservation_ignores_spreadsheetId :
  spreadsheetId (this world1) = "sheet-A"
  /\ map (fun cr => spreadsheetOf cr.1)
       (drop (length (trace world1)) (trace (transact 0 1 callback world1).2))
     = ["1g6aHhV7-EsB6SRmM9KIQq9y_Mm4ZVfMw_5aK79NvDXg"; "sheet-A"]
  /\ forall sheet (w : World Book),
       spreadsheetOf (appendBlankRow sheet) = "1g6aHhV7-EsB6SRmM9KIQq9y_Mm4ZVfMw_5aK79NvDXg"
       /\ trace (getNextRowIndex sheet w).2
          = trace w ++ [(appendBlankRow sheet, (send (appendBlankRow sheet) (remote w)).1)].
Proof.
  split; [reflexivity|]. split; [vm_compute; reflexivity|].
  intros sheet w. split; [reflexivity|].
  rewrite getNextRowIndex_call, call_eq. reflexivity.
Qed.

End Example.

(** * Further properties

    What the code shows beyond the statements above: the types, the writer,
    the store, the calls of [migrate] and [connect]. *)

(** ** The exported types *)

Section Serialization.
Context `{Host}.

(** X2.  Which values each exported type accepts, among [undefined],
    [null], booleans, numbers, bigints, strings, dates and what a record
    inherits (a built-in function, [Object.prototype]).  [String] returns
    exactly for strings and [Boolean] exactly for booleans; [Numeric] returns
    exactly for numbers and bigints; [DateTime] returns for everything but
    [undefined], [null] and a bigint.  What the first three return is the
    value itself, except that a bigint becomes its decimal text. *)
Theorem serialize_accepts (v : Value) :
  (isOk (serialize types.String v) = true <-> typeof v = "string")
  /\ (isOk (serialize Boolean v) = true <-> typeof v = "boolean")
  /\ (isOk (serialize Numeric v) = true <-> typeof v = "number" \/ typeof v = "bigint")
  /\ (isOk (serialize DateTime v) = true
      <-> v <> VUndefined /\ v <> VNull /\ typeof v <> "bigint")
  /\ (forall ty r,
        ty ∈ [types.String; Boolean; Numeric] -> serialize ty v = Ok r ->
        if String.eqb (typeof v) "bigint"
        then exists n, v = VBigInt n /\ r = VString (BigInt_toString n)
        else r = v).
Proof.
  split; [|split; [|split; [|split]]].
  - destruct v; simpl; split; done.
  - destruct v; simpl; split; done.
  - destruct v; simpl; split; try done; try (by intros [|]); auto.
  - destruct v; simpl; split; try done; try (by intros (? & ? & ?)).
  - intros ty r Hty. set_unfold in Hty.
    destruct Hty as [->|[->|[->|[]]]]; destruct v; simpl; try done; try (by intros [= <-]).
    intros [= <-]. eauto.
Qed.

Lemma serialize_Primitive (ty : Type_) (v r : Value) :
  ty ∈ exported -> serialize ty v = Ok r -> isPrimitive r = true.
Proof.
  intros Hty. unfold exported in Hty. set_unfold in Hty.
  destruct Hty as [->|[->|[->|[->|[]]]]]; destruct v; simpl; try done; by intros [= <-].
Qed.

(** X3.  [Numeric] sends a bigint as its decimal text, from which the
    bigint is read back: no two bigints are serialized alike. *)
Theorem Numeric_bigint_exact (n : Z) :
  exists s,
    serialize Numeric (VBigInt n) = Ok (VString s)
    /\ BigInt_ofString s = Some n
    /\ forall m, serialize Numeric (VBigInt m) = Ok (VString s) -> m = n.
Proof.
  exists (BigInt_toString n). split; [done|].
  assert (Hround : forall z, BigInt_ofString (BigInt_toString z) = Some z).
  { intros z. unfold BigInt_ofString, BigInt_toString.
    rewrite NilZero.isi.
    - simpl. by rewrite DecimalZ.of_to.
    - destruct z as [|p|p]; try done. simpl. intros [= Hnil].
      by apply DecimalPos.Unsigned.to_uint_nonnil in Hnil.
    - destruct z as [|p|p]; try done. simpl. intros [= Hnil].
      by apply DecimalPos.Unsigned.to_uint_nonnil in Hnil. }
  split; [apply Hround|].
  intros m [= Hm]. apply (f_equal BigInt_ofString) in Hm.
  rewrite !Hround in Hm. by injection Hm.
Qed.
End Serialization.

(** ** More on [TableWriter] *)

Section Buffer.
Context `{Host}.

Lemma mapM_append {A B} (f : A -> Result B) (l k : list A) :
  mapM f (l ++ k) = (ys ← mapM f l; zs ← mapM f k; mret (ys ++ zs)).
Proof.
  induction l as [|x l IH]; simpl.
  - by destruct (mapM f k).
  - destruct (f x) as [y|e]; simpl; [|done]. rewrite IH.
    destruct (mapM f l) as [ys|e]; simpl; [|done].
    by destruct (mapM f k).
Qed.

Lemma mapM_Throw_first {A B} (f : A -> Result B) (l : list A) (e : Error) :
  mapM f l = Throw e
  <-> exists l1 x l2,
        l = l1 ++ x :: l2 /\ Forall (fun y => isOk (f y) = true) l1 /\ f x = Throw e.
Proof.
  split.
  - induction l as [|x l IH]; simpl; [done|].
    destruct (f x) as [y|e'] eqn:Hx; simpl.
    + destruct (mapM f l) as [ys|e'']; simpl; [done|].
      intros [= ->]. destruct IH as (l1 & z & l2 & -> & Hl1 & Hz); [done|].
      exists (x :: l1), z, l2. split; [done|]. split; [|done].
      constructor; [by rewrite Hx|done].
    + intros [= ->]. by exists [], x, l.
  - intros (l1 & x & l2 & -> & Hl1 & Hx).
    induction Hl1 as [|y l1 Hy _ IH]; simpl.
    + by rewrite Hx.
    + destruct (f y); [|done]. simpl. by rewrite IH.
Qed.

Lemma mapM_isOk {A B} (f : A -> Result B) (l : list A) :
  isOk (mapM f l) = true <-> Forall (fun y => isOk (f y) = true) l.
Proof.
  induction l as [|x l IH]; simpl; [done|].
  rewrite Forall_cons, <- IH.
  destruct (f x); simpl; [|by split; [|intros []]].
  destruct (mapM f l); simpl; by split; [|intros []].
Qed.

(** X4.  The rows that [flush] returns for a table whose columns use the
    exported types hold nothing but [null], strings, numbers and booleans
    (the declared [Primitive]), whatever the records held. *)
Theorem flush_cells_Primitive (w : TableWriter) (rows : list (list Value)) :
  Forall (fun column => type (data column) ∈ exported) (columns w) ->
  TableWriter.flush w = Ok rows ->
  Forall (Forall (fun v => v = VNull \/ isPrimitive v = true)) rows.
Proof.
  intros Htypes. rewrite flush_mapM. intros Hrows.
  apply mapM_Ok_Forall2 in Hrows.
  induction Hrows as [|record row rs rows' Hrow Hrest IH]; constructor; [|exact IH].
  apply mapM_Ok_Forall2 in Hrow. clear Hrest IH.
  induction Hrow as [|column v cs row' Hv Hrest IH]; [constructor|].
  apply Forall_cons in Htypes as [Hty Htypes].
  constructor; [|by apply IH].
  unfold TableWriter.cell in Hv. destruct (eq_null _).
  - injection Hv as <-. by left.
  - right. by eapply serialize_Primitive.
Qed.

(** X5.  [flush] throws [e] exactly when, going through the records in
    insertion order and through the columns in declaration order, the first
    cell that fails is one whose value is not null and whose [serialize]
    throws [e]: every cell of the records before it, and every cell before it
    in its record, serializes. *)
Theorem flush_first_error (w : TableWriter) (e : Error) :
  TableWriter.flush w = Throw e
  <-> exists rs1 r rs2 cs1 c cs2,
        records w = rs1 ++ r :: rs2 /\ columns w = cs1 ++ c :: cs2
        /\ Forall (fun r' =>
                     Forall (fun c' => isOk (TableWriter.cell r' c') = true) (columns w))
             rs1
        /\ Forall (fun c' => isOk (TableWriter.cell r c') = true) cs1
        /\ eq_null (get r (name c)) = false
        /\ serialize (type (data c)) (get r (name c)) = Throw e.
Proof.
  rewrite flush_mapM, mapM_Throw_first. split.
  - intros (rs1 & r & rs2 & Hrs & Hok & Hr).
    apply mapM_Throw_first in Hr as (cs1 & c & cs2 & Hcs & Hcok & Hc).
    exists rs1, r, rs2, cs1, c, cs2. split; [done|]. split; [done|].
    split; [|split; [done|]].
    + eapply Forall_impl; [exact Hok|]. intros r' Hr'. by apply mapM_isOk.
    + unfold TableWriter.cell in Hc. by destruct (eq_null _).
  - intros (rs1 & r & rs2 & cs1 & c & cs2 & Hrs & Hcs & Hok & Hcok & Hnull & Hc).
    exists rs1, r, rs2. split; [done|]. split.
    + eapply Forall_impl; [exact Hok|]. intros r' Hr'. by apply mapM_isOk.
    + apply mapM_Throw_first. exists cs1, c, cs2. split; [done|]. split; [done|].
      unfold TableWriter.cell. by rewrite Hnull.
Qed.

(** X6.  A writer only grows.  After further [insert] and [insertMany]
    calls, [flush] returns the rows it returned before followed by the rows
    of the new records; if it threw before, it throws the same error
    whatever is inserted afterwards. *)
Theorem flush_after_inserts (w : TableWriter) (calls : list (Record_ + list Record_)) :
  match TableWriter.flush w with
  | Throw e => TableWriter.flush (inserts calls w) = Throw e
  | Ok rows =>
      TableWriter.flush (inserts calls w)
      = (more ← TableWriter.flush (inserts calls {| columns := columns w; records := [] |});
         mret (rows ++ more))
  end.
Proof.
  rewrite !flush_mapM.
  destruct (inserts_records calls w) as [-> ->].
  destruct (inserts_records calls {| columns := columns w; records := [] |}) as [-> ->].
  simpl. rewrite mapM_append.
  destruct (mapM _ (records w)) as [rows|e]; simpl; [|done].
  by destruct (mapM _ (inserted calls)).
Qed.

(** X7.  [flush] reads a record only at the names of the table's columns:
    records that agree there, whatever other properties they have, flush to
    the same rows. *)
Theorem flush_reads_columns_only (columns : list Column) (rs rs' : list Record_) :
  Forall2 (fun r r' => Forall (fun c => r' !! name c = r !! name c) columns) rs rs' ->
  TableWriter.flush {| table.columns := columns; records := rs' |}
  = TableWriter.flush {| table.columns := columns; records := rs |}.
Proof.
  intros Hsame. rewrite !flush_mapM. cbn [table.columns records].
  induction Hsame as [|r r' rs rs' Hr Hrest IH]; [done|].
  rewrite !mapM_cons, IH. f_equal.
  apply mapM_ext_in. intros c Hc. rewrite Forall_forall in Hr.
  unfold TableWriter.cell, get. by rewrite (Hr c Hc).
Qed.
End Buffer.

(** ** Stores, transactions, [migrate] and [connect] *)

Section Transactions.
Context `{Host} {S : Type} `{SheetsClient S}.
Implicit Types (w : World S) (store : Store).

(** X9.  A name that is not a table alias (nor a property every object
    has, nor [chunk]) is no property of a store: [store[name]] is [undefined]
    whether the store is open or closed, so [insert] and [insertMany] through
    it throw a [TypeError] and change nothing; a transaction whose callback
    does so throws that error without a call to the service. *)
Theorem Store_unknown_alias store (name : string) w :
  name ∉ keys (tables (this w)) ->
  name ∉ objectProperties ->
  Store_get store name w = (Ok None, w)
  /\ (forall record,
        Store_insert store name record w
        = (Throw (TypeError "Cannot read properties of undefined (reading 'insert')"), w))
  /\ (forall records,
        Store_insertMany store name records w
        = (Throw (TypeError "Cannot read properties of undefined (reading 'insertMany')"), w))
  /\ (forall from to record,
        let r := transact from to (fun store' => Store_insert store' name record) w in
        r.1 = Throw (TypeError "Cannot read properties of undefined (reading 'insert')")
        /\ this r.2 = this w /\ remote r.2 = remote w /\ trace r.2 = trace w).
Proof.
  intros Hname _.
  assert (Hget : forall st w', this w' = this w -> Store_get st name w' = (Ok None, w')).
  { intros st w' Hthis. unfold Store_get, mbind, M_bind, getThis.
    by rewrite Hthis, bool_decide_eq_false_2. }
  split; [by apply Hget|]. split; [|split].
  - intros record. unfold Store_insert, mbind, M_bind. by rewrite Hget.
  - intros records. unfold Store_insertMany, mbind, M_bind. by rewrite Hget.
  - intros from to record. cbv zeta. rewrite transact_eq. cbv zeta.
    rewrite commit_eq.
    assert (Hins : Store_insert (length (scopes w)) name record (newStore w).2
                   = (Throw (TypeError "Cannot read properties of undefined (reading 'insert')"),
                      (newStore w).2)).
    { unfold Store_insert, mbind, M_bind. by rewrite Hget. }
    by rewrite Hins.
Qed.

(** *** What a callback leaves in the writers *)

Lemma open_Store_get store (alias : string) w sc :
  scopes w !! store = Some sc -> open sc = true ->
  alias ∈ keys (tables (this w)) -> is_Some (chunk sc !! alias) ->
  Store_get store alias w = (Ok (Some (store, alias)), w).
Proof.
  intros Hsc Hopen Halias [writer Hwriter].
  unfold Store_get, storeChunk, mbind, M_bind, getThis, mret, M_ret.
  rewrite bool_decide_eq_true_2 by done. rewrite Hsc, Hopen. simpl. by rewrite Hwriter.
Qed.

Lemma updateWriter_eq store (alias : string) (f : TableWriter -> TableWriter) w sc :
  scopes w !! store = Some sc ->
  updateWriter (store, alias) f w
  = (Ok tt,
     {| this := this w; remote := remote w; trace := trace w;
        scopes := <[store := {| open := open sc; chunk := alter f alias (chunk sc) |}]>
                    (scopes w) |}).
Proof.
  intros Hsc. unfold updateWriter, setScopes. simpl.
  do 2 f_equal. apply list_eq. intros i.
  destruct (decide (i = store)) as [->|Hne].
  - rewrite list_lookup_alter_eq, Hsc, list_lookup_insert_eq; [done|].
    by eapply lookup_lt_Some.
  - by rewrite list_lookup_alter_ne, list_lookup_insert_ne.
Qed.

Lemma script_run (body : list Statement) store w sc :
  scopes w !! store = Some sc -> open sc = true ->
  Forall (fun s =>
            match s with
            | insert_ a _ | insertMany_ a _ =>
                a ∈ keys (tables (this w)) /\ is_Some (chunk sc !! a)
            | throw_ _ => False
            end) body ->
  let r := script body store w in
  r.1 = Ok tt /\ this r.2 = this w /\ remote r.2 = remote w /\ trace r.2 = trace w
  /\ is_Some (scopes r.2 !! store)
  /\ forall alias,
       buffered r.2 store alias = inserts (callsOn alias body) <$> chunk sc !! alias.
Proof.
  intros Hsc Hopen Hbody. cbv zeta. revert w sc Hsc Hopen Hbody.
  induction body as [|s body IH]; intros w sc Hsc Hopen Hbody.
  - simpl. repeat split; [by rewrite Hsc|]. intros alias. unfold buffered. rewrite Hsc. simpl.
    by destruct (chunk sc !! alias).
  - apply Forall_cons in Hbody as [Hs Hbody].
    assert (Hstep : forall (a : string) (f : TableWriter -> TableWriter)
                      (c : Record_ + list Record_) (m : M S unit),
               a ∈ keys (tables (this w)) -> is_Some (chunk sc !! a) ->
               m w = updateWriter (store, a) f w ->
               (forall writer, inserts [c] writer = f writer) ->
               let r := (_ ← m; script body store) w in
               r.1 = Ok tt /\ this r.2 = this w /\ remote r.2 = remote w
               /\ trace r.2 = trace w
               /\ is_Some (scopes r.2 !! store)
               /\ forall alias,
                    buffered r.2 store alias
                    = inserts (if String.eqb a alias then c :: callsOn alias body
                               else callsOn alias body) <$> chunk sc !! alias).
    { intros a f c m Ha Hwriter Hm Hf. cbv zeta. unfold mbind, M_bind.
      rewrite Hm, (updateWriter_eq _ _ _ _ _ Hsc).
      set (sc' := {| open := open sc; chunk := alter f a (chunk sc) |}).
      set (w' := {| this := this w; remote := remote w; trace := trace w;
                    scopes := <[store := sc']> (scopes w) |}).
      destruct (IH w' sc') as (Hr & Hthis & Hremote & Htrace & Hstore & Hbuf).
      + simpl. apply list_lookup_insert_eq. by eapply lookup_lt_Some.
      + done.
      + eapply Forall_impl; [exact Hbody|]. intros s'. simpl.
        destruct s' as [a' ?|a' ?|?]; [| |done];
          (intros [? ?]; split; [done|]; by apply lookup_alter_is_Some).
      + split; [done|]. split; [done|]. split; [done|]. split; [done|]. split; [done|].
        intros alias. rewrite Hbuf. simpl.
        destruct (String.eqb_spec a alias) as [->|Hne].
        * rewrite lookup_alter_eq. destruct (chunk sc !! alias) as [writer|]; [|done].
          simpl. by rewrite <- Hf.
        * by rewrite lookup_alter_ne. }
    destruct s as [a record|a records|e]; [| |done]; destruct Hs as [Ha Hwriter].
    + apply (Hstep a (TableWriter.insert record) (inl record)); try done.
      unfold Store_insert, mbind, M_bind.
      by rewrite (open_Store_get _ _ _ _ Hsc Hopen Ha Hwriter).
    + apply (Hstep a (TableWriter.insertMany records) (inr records)); try done.
      unfold Store_insertMany, mbind, M_bind.
      by rewrite (open_Store_get _ _ _ _ Hsc Hopen Ha Hwriter).
Qed.

Lemma createChunk_declared (this : Database) (a : string) :
  NoDup (keys (tables this)) -> a ∈ keys (tables this) -> is_Some (createChunk this !! a).
Proof.
  intros Hnodup Ha. apply list_elem_of_fmap in Ha as ([a' t] & -> & Hin).
  simpl. rewrite (createChunk_lookup _ _ _ Hnodup Hin). eauto.
Qed.

(** X10.  Let no table alias be [chunk].  A callback that inserts into
    declared tables and does not throw returns, and leaves in the store of
    its transaction, for every table, a writer that is the fresh writer of
    the table after exactly the [insert]/[insertMany] calls the callback made
    on that table's alias, in order.  Nothing of earlier transactions is in
    it. *)
Theorem script_buffers (body : list Statement) w :
  NoDup (keys (tables (this w))) ->
  storable (this w) ->
  declared (this w) body ->
  let store := length (scopes w) in
  let r := script body store (newStore w).2 in
  r.1 = Ok tt
  /\ forall alias t,
       (alias, t) ∈ tables (this w) ->
       buffered r.2 store alias
       = Some (inserts (callsOn alias body) (Table.createWriter t)).
Proof.
  intros Hnodup _ Hbody. cbv zeta.
  set (sc := {| open := true; chunk := createChunk (this w) |}).
  destruct (script_run body (length (scopes w)) (newStore w).2 sc)
    as (Hr & _ & _ & _ & _ & Hbuf).
  - simpl. by rewrite lookup_app_r, Nat.sub_diag.
  - done.
  - eapply Forall_impl; [exact Hbody|]. intros [a ?|a ?|?]; simpl; [| |done];
      (intros Ha; split; [done|]; by apply createChunk_declared).
  - split; [done|]. intros alias t Hin. rewrite Hbuf. simpl.
    by rewrite (createChunk_lookup _ _ _ Hnodup Hin).
Qed.

(** *** The calls of a transaction, for writers that are known *)

Lemma transact_run (from to : float) (cb : Store -> M S unit) w w1 sc
    (writers : list TableWriter) (indices : list float) (rowss : list (list (list Value))) :
  NoDup (keys (tables (this w))) ->
  cb (length (scopes w)) (newStore w).2 = (Ok tt, w1) ->
  this w1 = this w -> remote w1 = remote w -> trace w1 = trace w ->
  scopes w1 !! length (scopes w) = Some sc ->
  Forall2 (fun e writer => chunk sc !! e.1 = Some writer) (tables (this w)) writers ->
  let appends := map (fun e => appendBlankRow (Table.name e.2)) (tables (this w)) in
  let reserved := sendAll appends (remote w) in
  mapM rowIndexOf reserved.1 = Ok indices ->
  mapM TableWriter.flush writers = Ok rowss ->
  let batch := batchUpdate (this w) (zip_with writeOf (zip (tables (this w)) indices) rowss) to in
  let r := transact from to cb w in
  r.1 = (fun _ => tt) <$> (send batch reserved.2).1
  /\ trace r.2 = trace w ++ zip appends reserved.1 ++ [(batch, (send batch reserved.2).1)]
  /\ remote r.2 = (send batch reserved.2).2.
Proof.
  intros Hnodup Hcb Hthis Hremote Htrace Hsc Hwriters appends reserved Hindices Hflush.
  cbv zeta. rewrite transact_eq. cbv zeta. rewrite closeStore_eq. cbn [fst snd trace remote].
  rewrite commit_eq, Hcb.
  rewrite reservations_eq by (by rewrite Hthis).
  rewrite Promise_all_getNextRowIndex. cbv zeta.
  rewrite Hthis, Hremote, Htrace, map_map.
  fold appends. fold reserved. rewrite Hindices.
  assert (Hlen : length indices = length (tables (this w))).
  { apply mapM_Ok_length in Hindices. rewrite Hindices. unfold reserved.
    rewrite sendAll_length. unfold appends. by rewrite length_map. }
  cbn [scopes]. rewrite Hsc. cbn [fmap option_fmap option_map default].
  assert (Hentries :
            Forall2 (fun e writer => tableOf (this w) e.1 = Ok e.2
                                     /\ chunk sc !! e.1 = Some writer)
              (tables (this w)) writers).
  { exact (Forall2_and_l _ _ _ _ (tableOf_entries (this w) Hnodup) Hwriters). }
  unfold id. rewrite forOf_pushRequest, (requests_eq _ _ _ writers Hentries indices Hlen).
  rewrite Hflush. cbn [mbind Result_bind mret Result_ret]. rewrite call_eq.
  cbn [fst snd this remote trace scopes].
  destruct (send _ _).1; cbn [fst snd trace remote setLastCommitted fmap Result_fmap];
    by rewrite <- app_assoc.
Qed.


Lemma script_writers (body : list Statement) w :
  NoDup (keys (tables (this w))) ->
  declared (this w) body ->
  exists w1 sc (writers : list TableWriter),
    script body (length (scopes w)) (newStore w).2 = (Ok tt, w1)
    /\ this w1 = this w /\ remote w1 = remote w /\ trace w1 = trace w
    /\ scopes w1 !! length (scopes w) = Some sc
    /\ Forall2 (fun e writer => chunk sc !! e.1 = Some writer) (tables (this w)) writers
    /\ mapM TableWriter.flush writers
       = mapM (fun e =>
                 mapM (fun record => mapM (TableWriter.cell record) (Table.columns e.2))
                   (inserted (callsOn e.1 body)))
           (tables (this w)).
Proof.
  intros Hnodup Hbody.
  set (store := length (scopes w)).
  set (sc := {| open := true; chunk := createChunk (this w) |}).
  destruct (script_run body store (newStore w).2 sc)
    as (Hr & Hthis & Hremote & Htrace & [sc1 Hsc1] & Hbuf).
  { simpl. by rewrite lookup_app_r, Nat.sub_diag. }
  { done. }
  { eapply Forall_impl; [exact Hbody|]. intros [a ?|a ?|?]; simpl; [| |done];
      (intros Ha; split; [done|]; by apply createChunk_declared). }
  destruct (script body store (newStore w).2) as [[[]|e] w1] eqn:Hcb; [|discriminate Hr].
  cbn [fst snd] in *.
  set (writerOf := fun e : string * Table.t =>
                     inserts (callsOn e.1 body) (Table.createWriter e.2)).
  exists w1, sc1, (writerOf <$> tables (this w)).
  split; [done|]. split; [done|]. split; [done|]. split; [done|]. split; [done|]. split.
  - apply Forall2_fmap_r, Forall_Forall2_diag, Forall_forall. intros [a t] Hin.
    specialize (Hbuf a). unfold buffered in Hbuf. rewrite Hsc1 in Hbuf. simpl in *.
    by rewrite Hbuf, (createChunk_lookup _ _ _ Hnodup Hin).
  - rewrite mapM_fmap. apply mapM_ext_in. intros e _. unfold writerOf.
    rewrite flush_mapM.
    by destruct (inserts_records (callsOn e.1 body) (Table.createWriter e.2)) as [-> ->].
Qed.

(** X11.  What a transaction writes.  For tables with distinct aliases,
    none of them [chunk], and a callback that inserts into declared
    tables: when every reservation yields a row index and every
    record serializes, [transact] issues the appends, one per table, and
    then the batched update whose data are, for each table, the rows of the
    records inserted under its alias (one cell per column, [null] for a null
    or absent value), at the row after the table's index, and last the
    checkpoint [to].  The outcome of that call is the outcome of
    [transact]. *)
Theorem transact_writes_inserted_records (from to : float) (body : list Statement) w
    (indices : list float) (rowss : list (list (list Value))) :
  NoDup (keys (tables (this w))) ->
  storable (this w) ->
  declared (this w) body ->
  let appends := map (fun e => appendBlankRow (Table.name e.2)) (tables (this w)) in
  let reserved := sendAll appends (remote w) in
  mapM rowIndexOf reserved.1 = Ok indices ->
  mapM (fun e =>
          mapM (fun record => mapM (TableWriter.cell record) (Table.columns e.2))
            (inserted (callsOn e.1 body)))
    (tables (this w)) = Ok rowss ->
  let batch :=
    values_batchUpdate (spreadsheetId (this w))
      (zip_with (fun ei rows => {| range := rowsRange ei.1.2 ei.2; values := rows |})
         (zip (tables (this w)) indices) rowss
       ++ [{| range := "squid_status!R1C1"; values := [[VNumber to]] |}])
      USER_ENTERED false in
  let r := transact from to (script body) w in
  trace r.2 = trace w ++ zip appends reserved.1 ++ [(batch, (send batch reserved.2).1)]
  /\ r.1 = (fun _ => tt) <$> (send batch reserved.2).1
  /\ remote r.2 = (send batch reserved.2).2.
Proof.
  intros Hnodup _ Hbody appends reserved Hindices Hrows. cbv zeta.
  destruct (script_writers body w Hnodup Hbody)
    as (w1 & sc & writers & Hcb & Hthis & Hremote & Htrace & Hsc & Hwriters & Hflush).
  rewrite Hrows in Hflush.
  destruct (transact_run from to (script body) w w1 sc writers indices rowss Hnodup Hcb
              Hthis Hremote Htrace Hsc Hwriters Hindices Hflush) as (Hres & Htr & Hrem).
  done.
Qed.


(** *** The checkpoint in memory after a transaction *)

(** X13.  After a transaction to height [to] has returned, the checkpoint
    in memory is [to]: [advance(to)] issues no call and changes nothing,
    unless [to] is [NaN], which is equal to no number; then the update is
    sent. *)
Theorem advance_after_transact (from to : float) (cb : Store -> M S unit) w :
  StoreOnly cb ->
  (transact from to cb w).1 = Ok tt ->
  let w' := (transact from to cb w).2 in
  if (to =? to)%float then advance to w' = (Ok tt, w')
  else
    trace (advance to w').2
    = trace w' ++ [(checkpointUpdate (this w') to,
                    (send (checkpointUpdate (this w') to) (remote w')).1)].
Proof.
  intros Hcb Hr. cbv zeta.
  destruct (transact_frame from to cb w Hcb) as (_ & _ & _ & Hlast & _).
  rewrite Hr in Hlast. simpl in Hlast.
  rewrite advance_eq, Hlast.
  destruct (to =? to)%float; [done|]. by rewrite call_eq.
Qed.

(** *** [migrate] and [connect], call by call *)


(** X14.  [migrate] reads the spreadsheet once.  A table is missing when
    the answer lists sheets and none of them has the table's name as its
    title.  If no table is missing, that read is all [migrate] does.
    Otherwise one batch follows, with, for each missing table in declaration
    order, the request that adds its sheet and the request that writes its
    header row, both under the id computed from the table's name; the outcome
    of that batch is the outcome of [migrate]. *)
Theorem migrate_adds_missing_tables w (spreadsheet : Data) :
  let get := spreadsheets_get (spreadsheetId (this w)) in
  (send get (remote w)).1 = Ok spreadsheet ->
  let missing := filter (fun t => isNewTable spreadsheet t = true) (vals (tables (this w))) in
  (forall t,
     t ∈ missing
     <-> t ∈ vals (tables (this w))
         /\ exists sheets,
              data_sheets spreadsheet = Some sheets
              /\ Forall (fun s => title s <> Some (Table.name t)) sheets)
  /\ match missing with
     | [] => migrate w = (Ok tt, (call get w).2)
     | _ :: _ =>
         exists ids,
           let batch :=
             spreadsheets_batchUpdate (spreadsheetId (this w))
               (concat (zip_with tableRequests missing ids)) in
           let answer := (send batch (send get (remote w)).2).1 in
           Forall2 (fun t sheetId => readUint16LE (md5_digest (Table.name t)) = Ok sheetId)
             missing ids
           /\ trace (migrate w).2 = trace w ++ [(get, Ok spreadsheet); (batch, answer)]
           /\ (migrate w).1 = (fun _ => tt) <$> answer
     end.
Proof.
  intros get Hget missing. split.
  - intros t. unfold missing. rewrite list_elem_of_filter, isNewTable_spec. tauto.
  - pose proof (migrate_eq w) as Heq. cbv zeta in Heq. fold get in Heq.
    rewrite Hget in Heq. fold missing in Heq.
    destruct (mapM_newTableRequests missing) as (ids & Hrequests & Hids).
    destruct missing as [|t ts]; [done|].
    rewrite Hrequests in Heq. exists ids. cbv zeta. split; [done|].
    rewrite Heq, !call_eq. cbn [fst snd trace remote]. rewrite Hget, <- app_assoc.
    done.
Qed.


(** X15.  The calls of [connect]: between one and four, the first of
    them the read of the spreadsheet; all are addressed to the spreadsheet of
    the database, and each is a [spreadsheets.get], a [values.get] or a
    [spreadsheets.batchUpdate].  So [connect] makes no [values.update],
    [values.append] or [values.batchUpdate] call: it does not write the
    checkpoint cell and appends no row. *)
Theorem connect_calls w :
  exists new,
    trace (connect w).2 = trace w ++ new
    /\ head new.*1 = Some (spreadsheets_get (spreadsheetId (this w)))
    /\ Forall (fun cr =>
                 spreadsheetOf cr.1 = spreadsheetId (this w)
                 /\ match cr.1 with
                    | spreadsheets_get _ | values_get _ _ | spreadsheets_batchUpdate _ _ => True
                    | values_update _ _ _ _ | values_append _ _ _ _
                    | values_batchUpdate _ _ _ _ => False
                    end) new
    /\ (1 <= length new <= 4)%nat.
Proof.
  destruct (connect_trace w) as (new & Htrace & Hhead & Hall & Hlen & _).
  exists new. split; [done|]. split; [done|]. split; [|done].
  eapply Forall_impl; [exact Hall|]. intros [c r] [Hid Hschema].
  split; [exact Hid|]. by destruct c.
Qed.

(** X16.  [connect] raises no error of its own: when it throws [e], its
    last call was rejected with [e]; when it returns, it has made at least
    three calls and the service answered them all. *)
Theorem connect_fails_by_rejection w :
  let new := drop (length (trace w)) (trace (connect w).2) in
  match (connect w).1 with
  | Throw e => exists c, last new = Some (c, Throw e)
  | Ok _ => Forall (fun cr => isOk cr.2 = true) new /\ (3 <= length new)%nat
  end.
Proof.
  cbv zeta. destruct (connect_trace w) as (new & Htrace & _ & _ & _ & Hlast).
  by rewrite Htrace, drop_app_length.
Qed.

(** What [connect] returns, by the sheet it finds and the cell it reads. *)
Lemma connect_result w (h : float) :
  (connect w).1 = Ok h ->
  let get := spreadsheets_get (spreadsheetId (this w)) in
  let read := values_get (spreadsheetId (this w)) "squid_status!R1C1" in
  lastCommitted (this (connect w).2) = h
  /\ (exists spreadsheet,
        (send get (remote w)).1 = Ok spreadsheet
        /\ match findSheet spreadsheet "squid_status" with
           | None => h = (-1)%float
           | Some _ =>
               exists data,
                 (send read (send get (remote w)).2).1 = Ok data
                 /\ h = if eq_null (firstCell data) then (-1)%float
                        else Number (firstCell data)
           end)
  /\ ((h =? h)%float = true -> advance h (connect w).2 = (Ok tt, (connect w).2)).
Proof.
  intros Hr get read.
  assert (Hlast : lastCommitted (this (connect w).2) = h
                  /\ exists spreadsheet,
                       (send get (remote w)).1 = Ok spreadsheet
                       /\ match findSheet spreadsheet "squid_status" with
                          | None => h = (-1)%float
                          | Some _ =>
                              exists data,
                                (send read (send get (remote w)).2).1 = Ok data
                                /\ h = if eq_null (firstCell data) then (-1)%float
                                       else Number (firstCell data)
                          end).
  { revert Hr. rewrite connect_eq. cbv zeta. fold get. fold read.
    rewrite call_eq. cbn [fst snd remote].
    destruct (send get (remote w)).1 as [spreadsheet|e]; [|done].
    assert (Hresume : forall x w2,
               (match migrate (setLastCommitted x w2).2 with
                | (Throw e, w3) => (Throw e, w3)
                | (Ok _, w3) => (Ok (lastCommitted (this w3)), w3)
                end).1 = Ok h ->
               lastCommitted
                 (this (match migrate (setLastCommitted x w2).2 with
                        | (Throw e, w3) => (Throw e, w3)
                        | (Ok _, w3) => (Ok (lastCommitted (this w3)), w3)
                        end).2) = h
               /\ h = x).
    { intros x w2.
      destruct (migrate_calls (setLastCommitted x w2).2) as (Hthis & _).
      destruct (migrate _) as [[[]|e] w3]; [|done]. cbn [fst snd] in *.
      intros [= <-]. by rewrite Hthis. }
    destruct (findSheet spreadsheet "squid_status") eqn:Hfind; cbv zeta; rewrite call_eq;
      cbn [fst snd remote];
      match goal with |- context [send ?c (send get (remote w)).2] =>
        destruct (send c (send get (remote w)).2).1 as [d|e]; [|done]
      end; intros Hh; apply Hresume in Hh as [Hlast ->];
      (split; [exact Hlast|]); exists spreadsheet; rewrite Hfind; (split; [done|]);
      [|done].
    exists d. split; [done|]. unfold coalesce. by destruct (eq_null _). }
  destruct Hlast as [Hlast Hvalue]. split; [done|]. split; [done|].
  intros Hh. by rewrite advance_eq, Hlast, Hh.
Qed.

(** X17.  The number [connect] returns is the checkpoint it leaves in
    memory; [migrate] does not change it.  It is [-1] when the spreadsheet
    read first has no list of sheets, or none of them is titled
    [squid_status].  Otherwise the range [squid_status!R1C1] is read from
    the service as the first read left it, and the number is [-1] when the
    answer has no rows, an empty first row, or a first cell that is null, and
    [Number] of that cell otherwise.  So [advance] to that height right after
    [connect] issues no call (unless the height is [NaN]). *)
Theorem connect_returns_checkpoint w (h : float) :
  (connect w).1 = Ok h ->
  let get := spreadsheets_get (spreadsheetId (this w)) in
  let read := values_get (spreadsheetId (this w)) "squid_status!R1C1" in
  lastCommitted (this (connect w).2) = h
  /\ (exists spreadsheet,
        (send get (remote w)).1 = Ok spreadsheet
        /\ let statusSheet :=
             match data_sheets spreadsheet with
             | Some sheets => find (fun s => bool_decide (title s = Some "squid_status")) sheets
             | None => None
             end in
           match statusSheet with
           | None => h = (-1)%float
           | Some _ =>
               exists data,
                 (send read (send get (remote w)).2).1 = Ok data
                 /\ h = match data_values data with
                        | Some ((v :: _) :: _) =>
                            match v with
                            | VUndefined | VNull => (-1)%float
                            | _ => Number v
                            end
                        | _ => (-1)%float
                        end
           end)
  /\ ((h =? h)%float = true -> advance h (connect w).2 = (Ok tt, (connect w).2)).
Proof.
  intros Hr get read.
  destruct (connect_result w h Hr) as (Hlast & (spreadsheet & Hget & Hcase) & Hadvance).
  split; [exact Hlast|]. split; [|exact Hadvance].
  exists spreadsheet. split; [exact Hget|]. cbv zeta.
  change (match data_sheets spreadsheet with
          | Some sheets => find (fun s => bool_decide (title s = Some "squid_status")) sheets
          | None => None
          end) with (findSheet spreadsheet "squid_status").
  destruct (findSheet spreadsheet "squid_status"); [|exact Hcase].
  destruct Hcase as (data & Hread & ->). exists data. split; [exact Hread|].
  unfold firstCell. destruct (data_values data) as [[|[|v row] rows]|]; try done.
  by destruct v.
Qed.

(** X18.  [connect] does not read the checkpoint in memory: whatever
    [lastCommitted] holds before, the calls, the result and the state of the
    service are the same, and when [connect] returns the whole state is the
    same.  In particular [close] followed by [connect] gives the result of
    [connect]. *)
Theorem connect_ignores_lastCommitted (x : float) w :
  let r := connect w in
  let r' := connect (setLastCommitted x w).2 in
  r'.1 = r.1 /\ trace r'.2 = trace r.2 /\ remote r'.2 = remote r.2
  /\ (isOk r.1 = true -> r'.2 = r.2)
  /\ (connect (close w).2).1 = r.1.
Proof.
  assert (Hgen : forall y,
             (connect (setLastCommitted y w).2).1 = (connect w).1
             /\ trace (connect (setLastCommitted y w).2).2 = trace (connect w).2
             /\ remote (connect (setLastCommitted y w).2).2 = remote (connect w).2
             /\ (isOk (connect w).1 = true
                 -> (connect (setLastCommitted y w).2).2 = (connect w).2)).
  { intros y. rewrite !connect_eq. cbv zeta. rewrite !call_eq.
    cbn [fst snd this remote trace scopes setLastCommitted spreadsheetId].
    destruct (send _ (remote w)).1 as [spreadsheet|e]; [|done].
    destruct (findSheet spreadsheet "squid_status"); cbv zeta; rewrite ?call_eq;
      cbn [fst snd this remote trace scopes setLastCommitted spreadsheetId tables];
      match goal with |- context [send ?c (send ?g (remote w)).2] =>
        destruct (send c (send g (remote w)).2).1 as [d|e]; [|done]
      end; done. }
  cbv zeta. destruct (Hgen x) as (? & ? & ? & ?).
  repeat split; try done. apply (Hgen (-1)%float).
Qed.
End Transactions.

(** ** The sheet of a new table *)

Section Schema.
Context `{Host}.

Lemma Table_new_columns (name : string) (schema : TableSchema) :
  Table.columns (Table.new name schema)
  = map (fun cd => {| table.name := cd.1; data := cd.2 |}) schema.
Proof.
  unfold Table.new. simpl.
  assert (Hgen : forall acc,
             fold_left
               (fun columns '(column, d) => columns ++ [{| table.name := column; data := d |}])
               schema acc
             = acc ++ map (fun cd => {| table.name := cd.1; data := cd.2 |}) schema).
  { induction schema as [|[column d] schema IH]; intros acc; simpl.
    - by rewrite app_nil_r.
    - by rewrite IH, <- app_assoc. }
  apply Hgen.
Qed.

Lemma newTableRequests_new (name : string) (schema : TableSchema) (sheetId : Z) :
  readUint16LE (md5_digest name) = Ok sheetId ->
  newTableRequests (Table.new name schema)
  = Ok [ addSheet (Some sheetId) name 1 (length schema);
         updateCells sheetId 0 (length schema) 0 1
           [ map (fun cd =>
                    {| userEnteredValue_stringValue := cd.1;
                       userEnteredFormat_numberFormat_type := formatType (type cd.2) |})
               schema ]
           "userEnteredValue(stringValue),userEnteredFormat(numberFormat)" ].
Proof.
  intros Hid. unfold newTableRequests. rewrite Table_new_columns. cbn [Table.name Table.new].
  rewrite Hid. cbn [mbind Result_bind mret Result_ret].
  by rewrite length_map, map_map.
Qed.

(** X19.  The sheet id of a table is the number that the first two bytes
    of the MD5 digest of its name make, the first byte the low one: it is
    below 65536 and depends on the name alone.  For a table made by
    [new Table(name, schema)], whatever the schema, the requests of
    [migrate] are: a sheet titled [name] of one row and as many columns as
    the schema has properties, under that id; and a header row written to
    the first row of the sheet of that id, with one cell per property of the
    schema, in order, holding the property's name and carrying the format of
    its type. *)
Theorem new_table_requests (name : string) :
  exists (b0 b1 : Byte.byte) (rest : list Byte.byte),
    md5_digest name = b0 :: b1 :: rest
    /\ let sheetId := (Z.of_N (Byte.to_N b0) + 256 * Z.of_N (Byte.to_N b1))%Z in
       (0 <= sheetId < 65536)%Z
       /\ forall schema : TableSchema,
            newTableRequests (Table.new name schema)
            = Ok [ addSheet (Some sheetId) name 1 (length schema);
                   updateCells sheetId 0 (length schema) 0 1
                     [ map (fun cd =>
                              {| userEnteredValue_stringValue := cd.1;
                                 userEnteredFormat_numberFormat_type :=
                                   formatType (type cd.2) |})
                         schema ]
                     "userEnteredValue(stringValue),userEnteredFormat(numberFormat)" ].
Proof.
  pose proof (md5_digest_length name) as Hlen.
  destruct (md5_digest name) as [|b0 [|b1 rest]] eqn:Hdigest; try discriminate.
  exists b0, b1, rest. split; [done|]. cbv zeta.
  pose proof (Byte.to_N_bounded b0). pose proof (Byte.to_N_bounded b1).
  split; [lia|]. intros schema. apply newTableRequests_new.
  rewrite Hdigest. cbn [readUint16LE]. rewrite Z.shiftl_mul_pow2 by lia. f_equal. lia.
Qed.

(** X20.  The sheet id is not injective in the table name: there are two
    tables with different names for which [migrate] asks for sheets with the
    same id. *)
Theorem sheetId_collision :
  exists name1 name2 sheetId,
    name1 <> name2
    /\ forall schema1 schema2,
         exists rest1 rest2,
           newTableRequests (Table.new name1 schema1)
           = Ok (addSheet (Some sheetId) name1 1 (length schema1) :: rest1)
           /\ newTableRequests (Table.new name2 schema2)
              = Ok (addSheet (Some sheetId) name2 1 (length schema2) :: rest2).
Proof.
  set (nameOf := fun i : nat => string_of_list_ascii (repeat "a"%char i)).
  set (idOf := fun i : nat =>
                 match readUint16LE (md5_digest (nameOf i)) with
                 | Ok z => Z.to_nat z
                 | Throw _ => 0%nat
                 end).
  destruct (finite.nat_pigeonhole idOf (Z.to_nat 65537) (Z.to_nat 65536))
    as (i1 & i2 & Hlt & Heq); [lia| |].
  { intros i _. unfold idOf.
    destruct (sheetId_range (nameOf i)) as (z & -> & Hz). lia. }
  unfold idOf in Heq.
  destruct (sheetId_range (nameOf i1)) as (z1 & Hz1 & Hr1).
  destruct (sheetId_range (nameOf i2)) as (z2 & Hz2 & Hr2).
  rewrite Hz1, Hz2 in Heq. assert (z2 = z1) as -> by lia.
  exists (nameOf i1), (nameOf i2), z1. split.
  - intros Hname. apply (f_equal list_ascii_of_string) in Hname.
    unfold nameOf in Hname. rewrite !list_ascii_of_string_of_list_ascii in Hname.
    apply (f_equal (@length ascii)) in Hname. rewrite !repeat_length in Hname. lia.
  - intros schema1 schema2. eexists _, _.
    by rewrite (newTableRequests_new _ schema1 _ Hz1), (newTableRequests_new _ schema2 _ Hz2).
Qed.
End Schema.

(** ** The further properties on the example *)

Section Scenario.
Import reference.

Lemma tables_storable : storable (this world1).
Proof.
  unfold storable. vm_compute. intros Hin.
  apply elem_of_cons in Hin as [[=]|Hin]. by apply elem_of_nil in Hin.
Qed.

(** X4 on the example: the two rows of the scenario. *)
Lemma flush_cells_Primitive_witness :
  Forall (Forall (fun v => v = VNull \/ isPrimitive v = true))
    [[VNumber 1; VNull]; [VNumber 2; VNull]].
Proof.
  apply (flush_cells_Primitive (inserts [inl one; inl two] (Table.createWriter transfers))).
  - repeat constructor; unfold exported; set_solver.
  - reflexivity.
Defined.

(** X7 on the example: a record with a property [memo] that is no column. *)
Lemma flush_reads_columns_only_witness :
  TableWriter.flush
    {| columns := Table.columns transfers; records := [<["memo" := VString "x"]> two] |}
  = TableWriter.flush {| columns := Table.columns transfers; records := [two] |}.
Proof.
  apply flush_reads_columns_only.
  repeat constructor.
Defined.

(** X9 on the example: the database declares no table [blocks]. *)
Lemma Store_unknown_alias_witness :
  Store_insert 0 "blocks" one world1
  = (Throw (TypeError "Cannot read properties of undefined (reading 'insert')"), world1).
Proof.
  apply (Store_unknown_alias 0 "blocks" world1).
  - vm_compute. intros Hin. apply elem_of_cons in Hin as [[=]|Hin]. by apply elem_of_nil in Hin.
  - unfold objectProperties. intros Hin.
    repeat (apply elem_of_cons in Hin as [[=]|Hin]). by apply elem_of_nil in Hin.
Defined.

(** X10 on the example: after the callback, the writer of [transfers] holds
    the two records, in order. *)
Lemma script_buffers_witness :
  buffered (callback (length (scopes world1)) (newStore world1).2).2 (length (scopes world1))
    "transfers"
  = Some (TableWriter.insert two (TableWriter.insert one (Table.createWriter transfers))).
Proof.
  assert (Hbody : declared (this world1) [insert_ "transfers" one; insert_ "transfers" two]).
  { repeat constructor. }
  destruct (script_buffers [insert_ "transfers" one; insert_ "transfers" two] world1
              tables_NoDup tables_storable Hbody) as [_ Hbuffered].
  apply (Hbuffered "transfers" transfers). vm_compute. constructor.
Defined.

(** X11 on the example: the calls of the transaction. *)
Lemma transact_writes_inserted_records_witness :
  drop (length (trace world1)) (trace (transact 0 1 callback world1).2)
  = [(values_append "1g6aHhV7-EsB6SRmM9KIQq9y_Mm4ZVfMw_5aK79NvDXg" "'transfers'" RAW
        [[VString ""]],
      Ok {| data_sheets := None; data_values := None;
            data_tableRange := Some "transfers!A1:B1" |});
     (values_batchUpdate "sheet-A"
        [{| range := "'transfers'!R2C1:C2";
            values := [[VNumber 1; VNull]; [VNumber 2; VNull]] |};
         {| range := "squid_status!R1C1"; values := [[VNumber 1]] |}]
        USER_ENTERED false,
      Ok noData)].
Proof.
  assert (Hbody : declared (this world1) [insert_ "transfers" one; insert_ "transfers" two]).
  { repeat constructor. }
  destruct (transact_writes_inserted_records 0 1
              [insert_ "transfers" one; insert_ "transfers" two] world1
              [1%float] [[[VNumber 1; VNull]; [VNumber 2; VNull]]]
              tables_NoDup tables_storable Hbody) as (Htrace & _ & _).
  - vm_compute. reflexivity.
  - vm_compute. reflexivity.
  - unfold callback. rewrite Htrace, drop_app_length. vm_compute. reflexivity.
Defined.


(** X13 on the example: after the transaction to height 1, [advance(1)] does
    nothing. *)
Lemma advance_after_transact_witness :
  advance 1 (transact 0 1 callback world1).2 = (Ok tt, (transact 0 1 callback world1).2).
Proof.
  assert (Hr : (transact 0 1 callback world1).1 = Ok tt) by (vm_compute; reflexivity).
  exact (advance_after_transact 0 1 callback world1 callback_StoreOnly Hr).
Defined.

(** X14 on the example.  The spreadsheet [sheet-A] has no sheet at first:
    the table is missing, and [migrate] adds its sheet under the id 59604,
    the bytes [d4 e8] that begin the digest of its name.  Once [connect] has
    run, the sheet is there and [migrate] only reads the spreadsheet. *)
Lemma migrate_adds_missing_tables_witness :
  (send (spreadsheets_get (spreadsheetId (this world0))) (remote world0)).1
  = Ok {| data_sheets := Some []; data_values := None; data_tableRange := None |}
  /\ trace (migrate world0).2
     = [(spreadsheets_get "sheet-A",
         Ok {| data_sheets := Some []; data_values := None; data_tableRange := None |});
        (spreadsheets_batchUpdate "sheet-A" (tableRequests transfers 59604), Ok noData)]
  /\ (migrate world0).1 = Ok tt
  /\ (send (spreadsheets_get (spreadsheetId (this world1))) (remote world1)).1
     = Ok {| data_sheets := Some [{| title := Some "squid_status" |};
                                  {| title := Some "transfers" |}];
             data_values := None; data_tableRange := None |}
  /\ migrate world1
     = (Ok tt, (call (spreadsheets_get (spreadsheetId (this world1))) world1).2).
Proof.
  assert (Hget0 : (send (spreadsheets_get (spreadsheetId (this world0))) (remote world0)).1
                  = Ok {| data_sheets := Some []; data_values := None;
                          data_tableRange := None |}) by (vm_compute; reflexivity).
  assert (Hget1 : (send (spreadsheets_get (spreadsheetId (this world1))) (remote world1)).1
                  = Ok {| data_sheets := Some [{| title := Some "squid_status" |};
                                               {| title := Some "transfers" |}];
                          data_values := None; data_tableRange := None |})
    by (vm_compute; reflexivity).
  split; [exact Hget0|].
  destruct (migrate_adds_missing_tables world0 _ Hget0) as [_ Hcalls0].
  destruct (migrate_adds_missing_tables world1 _ Hget1) as [_ Hcalls1].
  assert (Hmissing0 :
            filter (fun t => isNewTable
                               {| data_sheets := Some []; data_values := None;
                                  data_tableRange := None |} t = true)
              (vals (tables (this world0)))
            = [transfers]) by (vm_compute; reflexivity).
  assert (Hmissing1 :
            filter (fun t => isNewTable
                               {| data_sheets := Some [{| title := Some "squid_status" |};
                                                       {| title := Some "transfers" |}];
                                  data_values := None; data_tableRange := None |} t = true)
              (vals (tables (this world1)))
            = []) by (vm_compute; reflexivity).
  rewrite Hmissing0 in Hcalls0. rewrite Hmissing1 in Hcalls1.
  destruct Hcalls0 as (ids & Hids & Htrace & Hresult).
  apply Forall2_cons_inv_l in Hids as (id & rest & Hid & Hrest & ->).
  apply Forall2_nil_inv_l in Hrest as ->.
  assert (Hsheet : readUint16LE (md5_digest (Table.name transfers)) = Ok 59604%Z)
    by (vm_compute; reflexivity).
  assert (id = 59604%Z) as -> by congruence.
  assert (Hanswer :
            (send (spreadsheets_batchUpdate (spreadsheetId (this world0))
                     (concat (zip_with tableRequests [transfers] [59604%Z])))
               (send (spreadsheets_get (spreadsheetId (this world0))) (remote world0)).2).1
            = Ok noData) by (vm_compute; reflexivity).
  rewrite Hanswer in Htrace, Hresult.
  split; [rewrite Htrace; vm_compute; reflexivity|].
  split; [exact Hresult|]. split; [exact Hget1|exact Hcalls1].
Defined.

(** X17 on the example.  [connect] on the empty spreadsheet returns [-1],
    and [advance(-1)] after it does nothing.  After the transaction to
    height 1 and a [close], which puts [-1] in memory, the cell reads ["1"]:
    [connect] returns [1] and leaves it in memory. *)
Lemma connect_returns_checkpoint_witness :
  (connect world0).1 = Ok (-1)%float
  /\ lastCommitted (this (connect world0).2) = (-1)%float
  /\ advance (-1) (connect world0).2 = (Ok tt, (connect world0).2)
  /\ (let w := (close (transact 0 1 callback world1).2).2 in
      lastCommitted (this w) = (-1)%float
      /\ (send (values_get "sheet-A" "squid_status!R1C1") (remote w)).1
         = Ok {| data_sheets := None; data_values := Some [[VString "1"]];
                 data_tableRange := None |}
      /\ (connect w).1 = Ok 1%float
      /\ lastCommitted (this (connect w).2) = 1%float).
Proof.
  assert (Hr : (connect world0).1 = Ok (-1)%float) by (vm_compute; reflexivity).
  destruct (connect_returns_checkpoint world0 (-1)%float Hr) as (Hlast & _ & Hadvance).
  split; [exact Hr|]. split; [exact Hlast|]. split; [apply Hadvance; reflexivity|].
  cbv zeta.
  assert (Hr' : (connect (close (transact 0 1 callback world1).2).2).1 = Ok 1%float)
    by (vm_compute; reflexivity).
  destruct (connect_returns_checkpoint _ 1%float Hr') as (Hlast' & _ & _).
  split; [reflexivity|]. split; [vm_compute; reflexivity|].
  split; [exact Hr'|exact Hlast'].
Defined.
End Scenario.
